(** * BytePusher VM (warpdesign/bytepusher-js): a shallow embedding of [src/main.js]

    The development follows the layout of the JavaScript file:
    - [JS]: the 32-bit integer operators of the language ([>>], [<<], [|],
      [&], [~]) that the program applies to its numbers;
    - [DataView]: the [ArrayBuffer] / [DataView] accessors the program calls;
    - [BytePusher]: the memory object and the CPU loop;
    - [Keyboard], [Screen]: the key state and the palette;
    - [Number], [Main]: binary64 numbers and the frame loop of [main];
    - [Audio], [Spec], [SpecEngine], [Machine], [Inputs]: the vocabulary of
      the specification the code is compared with, the operations of the
      memory object as a transition system, and the concrete inputs of the
      examples.

    Statements about the code come after all the definitions. *)

From Stdlib Require Import ZArith Lia List Bool.
From Stdlib Require Import Strings.Byte Floats.
From stdpp Require Import base gmap strings.

Local Open Scope Z_scope.

(** ** Exceptions and the state-and-exception monad

    Every method of the program either returns a value or throws, and it may
    have mutated the object it works on before throwing.  A computation is
    therefore a function from the mutable state to a completion and the state
    left behind.  Loops are run with a bound on the number of times their
    body is entered; [OutOfFuel] is the completion of a loop that reached the
    bound, and no JavaScript behaviour. *)

Inductive error : Set :=
| AddressOutOfBounds   (* [throw new Error('Address out of bounds')] *)
| ImageTooLarge        (* [throw new Error(`Image is too large ...`)] *)
| RangeError.          (* thrown by [DataView] accessors on a bad offset *)

Inductive result (A : Type) : Type :=
| Ok (a : A)
| Throw (e : error)
| OutOfFuel.

Arguments Ok {A} a.
Arguments Throw {A} e.
Arguments OutOfFuel {A}.

Definition M (St A : Type) : Type := St -> result A * St.

Definition ret {St A} (a : A) : M St A := fun s => (Ok a, s).

Definition throw {St A} (e : error) : M St A := fun s => (Throw e, s).

Definition bind {St A B} (m : M St A) (k : A -> M St B) : M St B :=
  fun s =>
    match m s with
    | (Ok a, s') => k a s'
    | (Throw e, s') => (Throw e, s')
    | (OutOfFuel, s') => (OutOfFuel, s')
    end.

#[global] Instance M_ret {St} : MRet (M St) := fun A => @ret St A.
#[global] Instance M_bind {St} : MBind (M St) := fun A B k m => @bind St A B m k.

(** A JavaScript loop whose local variables are [l : L]: while [cond l]
    holds, run [body], which returns the updated locals.  The body is
    entered at most [fuel] times. *)
Fixpoint loop_ {St L : Type} (fuel : nat) (cond : L -> bool)
    (body : L -> M St L) (l : L) : M St L :=
  fun s =>
    if cond l then
      match fuel with
      | O => (OutOfFuel, s)
      | S fuel' =>
          match body l s with
          | (Ok l', s') => loop_ fuel' cond body l' s'
          | (Throw e, s') => (Throw e, s')
          | (OutOfFuel, s') => (OutOfFuel, s')
          end
      end
    else (Ok l, s).

(** ** The 32-bit integer operators of JavaScript *)

Module JS.

Definition ToInt32 (x : Z) : Z := (x + 2 ^ 31) mod 2 ^ 32 - 2 ^ 31.

Definition ToUint32 (x : Z) : Z := x mod 2 ^ 32.

(** [x >> n] *)
Definition sar (x n : Z) : Z := Z.shiftr (ToInt32 x) (Z.land (ToUint32 n) 31).

(** [x << n] *)
Definition shl (x n : Z) : Z :=
  ToInt32 (Z.shiftl (ToInt32 x) (Z.land (ToUint32 n) 31)).

(** [x | y] *)
Definition bor (x y : Z) : Z := Z.lor (ToInt32 x) (ToInt32 y).

(** [x & y] *)
Definition band (x y : Z) : Z := Z.land (ToInt32 x) (ToInt32 y).

(** [~x] *)
Definition bnot (x : Z) : Z := Z.lnot (ToInt32 x).

End JS.

(** ** ArrayBuffer and DataView

    An [ArrayBuffer] has a length and is zero-initialised.  Only the cells
    that were stored to are kept, in a finite map; a cell that is absent from
    the map reads as zero.  The program only ever builds a [DataView] over a
    whole buffer, so a view is represented by its buffer. *)

Definition byte_to_Z (b : Byte.byte) : Z := Z.of_N (Byte.to_N b).

Definition byte_of_Z (z : Z) : Byte.byte :=
  match Byte.of_N (Z.to_N (z mod 256)) with
  | Some b => b
  | None => Byte.x00
  end.

Record ArrayBuffer : Type := mkBuffer {
  byteLength : Z;
  cells : gmap Z Byte.byte
}.

Module DataView.

(** [new ArrayBuffer(n)] *)
Definition alloc (n : Z) : ArrayBuffer := mkBuffer n ∅.

(** the byte at index [i], as a number in [0, 255] *)
Definition cell (b : ArrayBuffer) (i : Z) : Z :=
  byte_to_Z (default Byte.x00 (cells b !! i)).

Definition store (b : ArrayBuffer) (i v : Z) : ArrayBuffer :=
  mkBuffer (byteLength b) (<[i := byte_of_Z v]> (cells b)).

(** an access of [size] bytes at [off] lies inside the view *)
Definition in_view (b : ArrayBuffer) (off size : Z) : bool :=
  (0 <=? off) && (off + size <=? byteLength b).

Definition getUint8 (off : Z) : M ArrayBuffer Z := fun b =>
  if in_view b off 1 then (Ok (cell b off), b) else (Throw RangeError, b).

Definition setUint8 (off v : Z) : M ArrayBuffer unit := fun b =>
  if in_view b off 1 then (Ok tt, store b off v) else (Throw RangeError, b).

(** big-endian, as [getUint32(off)] without a [littleEndian] argument *)
Definition getUint32 (off : Z) : M ArrayBuffer Z := fun b =>
  if in_view b off 4 then
    (Ok (cell b off * 2 ^ 24 + cell b (off + 1) * 2 ^ 16
         + cell b (off + 2) * 2 ^ 8 + cell b (off + 3)), b)
  else (Throw RangeError, b).

Definition setUint16 (off v : Z) : M ArrayBuffer unit := fun b =>
  if in_view b off 2 then
    (Ok tt, store (store b off (Z.shiftr (v mod 2 ^ 16) 8)) (off + 1) (v mod 2 ^ 16))
  else (Throw RangeError, b).

Definition setUint32 (off v : Z) : M ArrayBuffer unit := fun b =>
  if in_view b off 4 then
    let w := JS.ToUint32 v in
    (Ok tt, store (store (store (store b off (Z.shiftr w 24))
                                (off + 1) (Z.shiftr w 16))
                         (off + 2) (Z.shiftr w 8))
                  (off + 3) w)
  else (Throw RangeError, b).

(** [buffer.transfer(n)]: a buffer of length [n] holding the first
    [min n byteLength] bytes of [b], the rest zero *)
Definition transfer (n : Z) (b : ArrayBuffer) : ArrayBuffer :=
  mkBuffer n
    (filter (fun kv : Z * Byte.byte => 0 <= kv.1 < Z.min n (byteLength b)) (cells b)).

End DataView.

(** ** The BytePusher object *)

Module BytePusher.

(** [mem: new DataView(new ArrayBuffer(0x1000008))] *)
Definition mem_init : ArrayBuffer := DataView.alloc 0x1000008.

Definition readUint24 (addr : Z) : M ArrayBuffer Z :=
  if addr >? 0xFFFFFF then throw AddressOutOfBounds
  else w ← DataView.getUint32 addr; mret (JS.sar w 8).

Definition writeUint16 (src value : Z) : M ArrayBuffer unit :=
  if src >? 0xFFFFFF then throw AddressOutOfBounds
  else DataView.setUint16 src value.

Definition readByte (addr : Z) : M ArrayBuffer Z :=
  if addr >? 0xFFFFFF then throw AddressOutOfBounds
  else DataView.getUint8 addr.

(** The arguments of [setUint8] are evaluated left to right: the
    destination is resolved before the source. *)
Definition writeByte (src dest : Z) : M ArrayBuffer unit :=
  if (src >? 0xFFFFFF) || (dest >? 0xFFFFFF) then throw AddressOutOfBounds
  else
    d ← readUint24 dest;
    s ← readUint24 src;
    b ← DataView.getUint8 s;
    DataView.setUint8 d b.

(** the body of the [for] loop of [cpuLoop], on the locals [(i, pc)],
    followed by the [i++] of the loop header *)
Definition cpuLoop_body (l : Z * Z) : M ArrayBuffer (Z * Z) :=
  let '(i, pc) := l in
  writeByte pc (pc + 3);;
  pc' ← readUint24 (pc + 6);
  mret (i + 1, pc').

(** [cpuLoop] up to the end of the [for] loop, returning its locals *)
Definition cpuLoop_locals (fuel : nat) : M ArrayBuffer (Z * Z) :=
  pc ← readUint24 2;
  loop_ fuel (fun l : Z * Z => l.1 <? 65536) cpuLoop_body (0, pc).

Definition cpuLoop (fuel : nat) : M ArrayBuffer unit :=
  cpuLoop_locals fuel;; mret tt.

Definition setMemory (buffer : ArrayBuffer) : M ArrayBuffer unit := fun mem =>
  if byteLength buffer >? 0x1000008 then (Throw ImageTooLarge, mem)
  else (Ok tt, DataView.transfer 0x1000008 buffer).

Definition getFramebufferStartAddress : M ArrayBuffer Z :=
  b ← readByte 5; mret (JS.shl b 16).

End BytePusher.

(** ** The Keyboard object

    [keymap[e.key]] is [undefined] for a key that the map does not have.  A
    name inherited from [Object.prototype] is found by the lookup, but its
    value converts to 0 under [|=] and [~] turns it into -1 under [&=], so
    that such an event leaves [keyState] as an unmapped key does. *)

Module Keyboard.

(** [keyState: 0] *)
Definition keyState_init : Z := 0.

Definition keymap : gmap string Z :=
  list_to_map
    [("1", 0x2); ("2", 0x4); ("3", 0x8); ("4", 0x10);
     ("5", 0x20); ("6", 0x40); ("7", 0x80); ("8", 0x100);
     ("9", 0x200); ("a", 0x400); ("b", 0x800); ("c", 0x1000);
     ("d", 0x2000); ("e", 0x4000); ("f", 0x8000)]%string.

(** the ['keydown'] listener, on [e.key]: [keyState |= key] *)
Definition keydown (key : string) (keyState : Z) : Z :=
  match keymap !! key with
  | Some k => JS.bor keyState k
  | None => keyState
  end.

(** the ['keyup'] listener, on [e.key]: [keyState &= ~key] *)
Definition keyup (key : string) (keyState : Z) : Z :=
  match keymap !! key with
  | Some k => JS.band keyState (JS.bnot k)
  | None => keyState
  end.

Inductive event : Set :=
| KeyDown (key : string)
| KeyUp (key : string).

Definition dispatch (keyState : Z) (e : event) : Z :=
  match e with
  | KeyDown key => keydown key keyState
  | KeyUp key => keyup key keyState
  end.

(** the key state after the listeners have handled [es] in order *)
Definition dispatch_all (es : list event) : Z :=
  fold_left dispatch es keyState_init.

End Keyboard.

(** ** Typed arrays

    [new Uint8Array(buffer, byteOffset)] is a view of the bytes of [buffer]
    from [byteOffset] to its end.  Reading an index outside the view gives
    [undefined], here [None]. *)

Module Uint8Array.

Record t : Type := mk {
  buffer : ArrayBuffer;
  byteOffset : Z
}.

Definition make (buffer : ArrayBuffer) (byteOffset : Z) : result t :=
  if (byteOffset <? 0) || (byteLength buffer <? byteOffset) then Throw RangeError
  else Ok (mk buffer byteOffset).

Definition length (a : t) : Z := byteLength (buffer a) - byteOffset a.

(** [a[i]] *)
Definition get (a : t) (i : Z) : option Z :=
  if (0 <=? i) && (i <? length a)
  then Some (DataView.cell (buffer a) (byteOffset a + i))
  else None.

End Uint8Array.

(** An element of a [Uint32Array] is kept as its four bytes in memory
    order: the program only moves elements from one [Uint32Array] to
    another, which copies these bytes whatever the byte order of the host. *)

Module Uint32Array.

Definition element : Type := Z * Z * Z * Z.

Definition byte (e : element) (j : Z) : Z :=
  let '(b0, b1, b2, b3) := e in
  if j =? 0 then b0 else if j =? 1 then b1 else if j =? 2 then b2 else b3.

(** [a[k]], where the index [k] may itself be [undefined] *)
Definition get (a : ArrayBuffer) (k : option Z) : option element :=
  match k with
  | Some k =>
      if (0 <=? k) && (k * 4 + 4 <=? byteLength a)
      then Some (DataView.cell a (k * 4), DataView.cell a (k * 4 + 1),
                 DataView.cell a (k * 4 + 2), DataView.cell a (k * 4 + 3))
      else None
  | None => None
  end.

(** [a[i] = v]: [undefined] is stored as 0, and a store outside the array
    is ignored *)
Definition set (a : ArrayBuffer) (i : Z) (v : option element) : ArrayBuffer :=
  if (0 <=? i) && (i * 4 + 4 <=? byteLength a) then
    let e := default (0, 0, 0, 0) v in
    DataView.store
      (DataView.store
         (DataView.store (DataView.store a (i * 4) (byte e 0))
            (i * 4 + 1) (byte e 1))
         (i * 4 + 2) (byte e 2))
      (i * 4 + 3) (byte e 3)
  else a.

End Uint32Array.

(** ** The Screen object: the palette

    [palette] is a [Uint32Array(256)]; [initPalette] writes it through a
    [DataView] over its buffer of 1024 bytes, so that the bytes of an entry
    are R, G, B, A in this order. *)

Module Screen.

Definition palette_init : ArrayBuffer := DataView.alloc (256 * 4).

(** [r << 24 | g << 16 | b << 8 | 0xff] *)
Definition rgba (r g b : Z) : Z :=
  JS.bor (JS.bor (JS.bor (JS.shl r 24) (JS.shl g 16)) (JS.shl b 8)) 0xff.

(** The three nested loops share the counter [i]; each loop carries its
    own variable and [i]. *)
Definition initPalette_b (fuel : nat) (r g : Z) (i : Z) : M ArrayBuffer Z :=
  l ← loop_ fuel (fun l : Z * Z => l.1 <=? 0xff)
        (fun l => DataView.setUint32 (l.2 * 4) (rgba r g l.1);;
                  mret (l.1 + 0x33, l.2 + 1))
        (0, i);
  mret l.2.

Definition initPalette_g (fuel : nat) (r : Z) (i : Z) : M ArrayBuffer Z :=
  l ← loop_ fuel (fun l : Z * Z => l.1 <=? 0xff)
        (fun l => i' ← initPalette_b fuel r l.1 l.2; mret (l.1 + 0x33, i'))
        (0, i);
  mret l.2.

Definition initPalette_r (fuel : nat) (i : Z) : M ArrayBuffer Z :=
  l ← loop_ fuel (fun l : Z * Z => l.1 <=? 0xff)
        (fun l => i' ← initPalette_g fuel l.1 l.2; mret (l.1 + 0x33, i'))
        (0, i);
  mret l.2.

(** The second loop increments its own [i] twice per turn: once in
    [i++ * 4] and once in the loop header. *)
Definition initPalette_black (fuel : nat) : M ArrayBuffer Z :=
  loop_ fuel (fun i : Z => i <? 256)
    (fun i => DataView.setUint32 (i * 4) 0x000000ff;; mret (i + 1 + 1))
    216.

Definition initPalette (fuel : nat) : M ArrayBuffer unit :=
  initPalette_r fuel 0;;
  initPalette_black fuel;;
  mret tt.

(** palette entry [i] as the four bytes R, G, B, A read big-endian *)
Definition entry (palette : ArrayBuffer) (i : Z) : result Z :=
  (DataView.getUint32 (i * 4) palette).1.

(** [buffer: new ImageData(256, 256)]: four bytes per pixel *)
Definition buffer_init : ArrayBuffer := DataView.alloc (256 * 256 * 4).

(** [updateBuffer(framebuffer)], on the bytes of [this.buffer]; [array32]
    is the [Uint32Array] over these bytes *)
Definition updateBuffer (fuel : nat) (palette : ArrayBuffer)
    (framebuffer : Uint8Array.t) : M ArrayBuffer unit :=
  let length := 256 * 256 in
  loop_ fuel (fun i : Z => i <? length)
    (fun i array32 =>
       (Ok (i + 1),
        Uint32Array.set array32 i
          (Uint32Array.get palette (Uint8Array.get framebuffer i))))
    0;;
  mret tt.

End Screen.

(** ** Numbers as IEEE 754 doubles

    The timestamps of [requestAnimationFrame] and the scheduler variables are
    JavaScript Numbers.  [-], [/] and [>=] are the primitive binary64
    operations; [%] is the exact remainder with the sign of the dividend. *)

Module Number.

(** [x % y] *)
Definition rem (x y : float) : float :=
  match Prim2SF x, Prim2SF y with
  | S754_nan, _ | _, S754_nan => nan
  | S754_infinity _, _ => nan
  | _, S754_zero _ => nan
  | _, S754_infinity _ => x
  | S754_zero _, _ => x
  | S754_finite sx mx ex, S754_finite _ my ey =>
      let e := Z.min ex ey in
      let r := Z.rem (Z.pos mx * 2 ^ (ex - e)) (Z.pos my * 2 ^ (ey - e)) in
      SF2Prim (binary_normalize prec emax (if sx then - r else r) e sx)
  end.

(** a small integer as a Number *)
Definition of_Z (z : Z) : float :=
  if z <? 0 then (- of_uint63 (Uint63.of_Z (- z)))%float
  else of_uint63 (Uint63.of_Z z).

End Number.

(** ** The frame loop of [main] *)

Module Main.

Definition fps : float := 60.

Definition frameDuration : float := (1000 / fps)%float.

(** The calls that [loop] makes on the other objects, in order.  The log
    of calls is kept in the state so that it survives an exception. *)
Inductive call : Set :=
| WriteUint16 (addr value : Z)      (* [BytePusher.writeUint16(0, keyState)] *)
| CpuLoop                           (* [BytePusher.cpuLoop()] *)
| UpdateBuffer (framebuffer : Z)    (* [Screen.updateBuffer(new Uint8Array(.., fb))] *)
| Draw.                             (* [Screen.draw()] *)

Record state : Type := mkState {
  lastFrameTime : float;
  mem : ArrayBuffer;        (* [BytePusher.mem] *)
  keyState : Z;             (* [Keyboard.keyState] *)
  calls : list call
}.

Definition onMem {A} (c : M ArrayBuffer A) : M state A := fun st =>
  let '(r, m) := c (mem st) in
  (r, mkState (lastFrameTime st) m (keyState st) (calls st)).

Definition log (c : call) : M state unit := fun st =>
  (Ok tt, mkState (lastFrameTime st) (mem st) (keyState st) (calls st ++ [c])).

Definition setLastFrameTime (t : float) : M state unit := fun st =>
  (Ok tt, mkState t (mem st) (keyState st) (calls st)).

(** the body of [if (delta >= frameDuration)] after the assignment *)
Definition frame (fuel : nat) : M state unit := fun st =>
  (log (WriteUint16 0 (keyState st));;
   onMem (BytePusher.writeUint16 0 (keyState st));;
   log CpuLoop;;
   onMem (BytePusher.cpuLoop fuel);;
   fb ← onMem BytePusher.getFramebufferStartAddress;
   log (UpdateBuffer fb);;
   log Draw) st.

Definition loop (fuel : nat) (time : float) : M state unit := fun st =>
  let delta := (time - lastFrameTime st)%float in
  if (frameDuration <=? delta)%float then
    (setLastFrameTime (time - Number.rem delta frameDuration)%float;;
     frame fuel) st
  else (Ok tt, st).

(** The callback is scheduled again before anything else in [loop], so an
    exception in one tick does not prevent the next. *)
Definition tick (fuel : nat) (st : state) (time : float) : state :=
  (loop fuel time st).2.

(** between [st] and [st'] the body of the [if] was entered *)
Definition frame_executed (st st' : state) : bool :=
  (length (calls st) <? length (calls st'))%nat.

End Main.

(** ** Audio

    [src/main.js] has no audio decoder: its [loop] ends with the comment
    [TODO: update audio device]. *)

Module Audio.

(** Modelled from the spec: a memory byte read as one of the signed 8-bit
    samples of the audio region; the program has no audio decoder. *)
Definition int8 (b : Z) : Z := if b <? 128 then b else b - 256.

(** Modelled from the spec: the conversion [sample_float = sample_i8 / 128.0]
    of the specification's audio decoder (the README gives the same formula);
    the program has no audio decoder. *)
Definition sample_float (sample_i8 : Z) : float :=
  (Number.of_Z sample_i8 / 128)%float.

End Audio.

(** ** The specification's vocabulary

    The definitions of this module follow the words of the specification;
    the statements below compare them with the code above. *)

Module Spec.

(** the big-endian value of the three bytes at [addr], [addr+1], [addr+2] *)
Definition be24 (mem : ArrayBuffer) (addr : Z) : Z :=
  DataView.cell mem addr * 65536 + DataView.cell mem (addr + 1) * 256
  + DataView.cell mem (addr + 2).

(** Modelled from the spec: the single-byte store [writeByte(addr, byte)]
    of the specification's Memory component, which fails with OutOfBounds
    if [addr > 0xFFFFFF].  The program has no such method: its [writeByte]
    is the specification's [copyByte]. *)
Definition storeByte (addr b : Z) : M ArrayBuffer unit :=
  if addr >? 0xFFFFFF then throw AddressOutOfBounds
  else DataView.setUint8 addr b.

(** [writeByte(readUint24(destAddr), readByte(readUint24(srcAddr)))], the
    byte being read first *)
Definition copyByte (srcAddr destAddr : Z) : M ArrayBuffer unit :=
  s ← BytePusher.readUint24 srcAddr;
  b ← BytePusher.readByte s;
  d ← BytePusher.readUint24 destAddr;
  storeByte d b.

(** one ByteByteJump cycle: [copyByte(pc, pc + 3)], then
    [pc = readUint24(pc + 6)] *)
Definition cycle (pc : Z) : M ArrayBuffer Z :=
  BytePusher.writeByte pc (pc + 3);;
  BytePusher.readUint24 (pc + 6).

Fixpoint cycles (n : nat) (pc : Z) : M ArrayBuffer Z :=
  match n with
  | O => mret pc
  | S n' => pc' ← cycle pc; cycles n' pc'
  end.

(** a burst: [pc] starts as [readUint24(0x000002)], 65536 cycles follow,
    and the last [pc] is dropped *)
Definition burst : M ArrayBuffer unit :=
  pc ← BytePusher.readUint24 0x000002;
  cycles (Z.to_nat 65536) pc;;
  mret tt.

(** the [i]-th colour of the 6x6x6 cube, R-major, then G, then B, with
    full alpha, as the 32-bit value RGBA *)
Definition websafe (i : Z) : Z :=
  (0x33 * (i / 36)) * 2 ^ 24 + (0x33 * ((i / 6) mod 6)) * 2 ^ 16
  + (0x33 * (i mod 6)) * 2 ^ 8 + 0xFF.

Definition opaque_black : Z := 0x000000FF.

(** palette entry [i] of [palette] is the 32-bit value [v] *)
Definition entry_is (palette : ArrayBuffer) (i v : Z) : bool :=
  match Screen.entry palette i with
  | Ok w => w =? v
  | _ => false
  end.

(** the integers [lo], [lo + 1], ..., [lo + n - 1] *)
Definition range (lo : Z) (n : nat) : list Z :=
  map (fun k => lo + Z.of_nat k) (seq 0 n).

(** [r] is a palette initialisation that returned and left the cube at the
    entries 0-215, then opaque black at the even entries and zero at the odd
    ones *)
Definition palette_check (r : result unit * ArrayBuffer) : bool :=
  match r.1 with Ok _ => true | _ => false end
  && forallb (fun i => entry_is r.2 i (websafe i)) (range 0 216)
  && forallb (fun i => entry_is r.2 i (if Z.even i then opaque_black else 0))
       (range 216 40).

(** byte [i] of an image zero-padded to the capacity of the memory *)
Definition padded (bytes : ArrayBuffer) (i : Z) : Z :=
  if (0 <=? i) && (i <? byteLength bytes) then DataView.cell bytes i else 0.

(** the keyboard word only has bits among bits 1 to 15 *)
Definition key_bits (s : Z) : Prop := Z.land s 0xFFFE = s.

(** The scheduler example of the specification: from [lastFrameTime = 0],
    fed the timestamps 0, 8, 16, 24, 33, a frame executes at 16 and at 33
    and at no other tick, and [lastFrameTime] is not 33 in the end. *)
Definition scheduler_example (fuel : nat) (st0 : Main.state) : Prop :=
  let st1 := Main.tick fuel st0 0%float in
  let st2 := Main.tick fuel st1 8%float in
  let st3 := Main.tick fuel st2 16%float in
  let st4 := Main.tick fuel st3 24%float in
  let st5 := Main.tick fuel st4 33%float in
  Main.frame_executed st0 st1 = false /\
  Main.frame_executed st1 st2 = false /\
  Main.frame_executed st2 st3 = true /\
  Main.frame_executed st3 st4 = false /\
  Main.frame_executed st4 st5 = true /\
  Main.lastFrameTime st5 <> 33%float.

End Spec.

(** ** The Instruction Engine in the words of the specification

    [readUint24] reads four bytes big-endian and discards the low-order
    byte, which gives a value in [0, 0xFFFFFF]; [copyByte] resolves both
    addresses through it and copies one byte; a burst is 65536 cycles
    [copyByte(pc, pc + 3)], [pc = readUint24(pc + 6)] from
    [pc = readUint24(0x000002)].  The code is compared with these. *)

Module SpecEngine.

Definition readUint24 (addr : Z) : M ArrayBuffer Z :=
  if addr >? 0xFFFFFF then throw AddressOutOfBounds
  else w ← DataView.getUint32 addr; mret (w / 256).

Definition copyByte (srcAddr destAddr : Z) : M ArrayBuffer unit :=
  if (srcAddr >? 0xFFFFFF) || (destAddr >? 0xFFFFFF) then throw AddressOutOfBounds
  else
    s ← readUint24 srcAddr;
    d ← readUint24 destAddr;
    b ← BytePusher.readByte s;
    Spec.storeByte d b.

Definition cycle (pc : Z) : M ArrayBuffer Z :=
  copyByte pc (pc + 3);;
  readUint24 (pc + 6).

Fixpoint cycles (n : nat) (pc : Z) : M ArrayBuffer Z :=
  match n with
  | O => mret pc
  | S n' => pc' ← cycle pc; cycles n' pc'
  end.

(** the burst, returning the number of cycles it ran and the last [pc] *)
Definition burst : M ArrayBuffer (Z * Z) :=
  pc ← readUint24 0x000002;
  pc' ← cycles (Z.to_nat 65536) pc;
  mret (65536, pc').

End SpecEngine.

(** ** The operations of the memory object, as a transition system *)

Module Machine.

Inductive op : Type :=
| ReadUint24 (addr : Z)
| WriteUint16 (src value : Z)
| ReadByte (addr : Z)
| WriteByte (src dest : Z)
| CpuLoop (fuel : nat)
| SetMemory (buffer : ArrayBuffer)
| GetFramebufferStartAddress.

(** the memory left by an operation, whether it returned or threw *)
Definition step (mem : ArrayBuffer) (o : op) : ArrayBuffer :=
  match o with
  | ReadUint24 addr => (BytePusher.readUint24 addr mem).2
  | WriteUint16 src value => (BytePusher.writeUint16 src value mem).2
  | ReadByte addr => (BytePusher.readByte addr mem).2
  | WriteByte src dest => (BytePusher.writeByte src dest mem).2
  | CpuLoop fuel => (BytePusher.cpuLoop fuel mem).2
  | SetMemory buffer => (BytePusher.setMemory buffer mem).2
  | GetFramebufferStartAddress => (BytePusher.getFramebufferStartAddress mem).2
  end.

Definition run (ops : list op) : ArrayBuffer :=
  fold_left step ops BytePusher.mem_init.

End Machine.

(** ** Vocabulary of the further statements *)

Module Aux.


(** pixel [i] of an image buffer, as the 32-bit value RGBA *)
Definition rgba (buf : ArrayBuffer) (i : Z) : Z :=
  DataView.cell buf (i * 4) * 2 ^ 24 + DataView.cell buf (i * 4 + 1) * 2 ^ 16
  + DataView.cell buf (i * 4 + 2) * 2 ^ 8 + DataView.cell buf (i * 4 + 3).

(** [key] is held after the events [es]: its last event, if any, is a
    keydown; [held0] is the answer for no event *)
Definition held (key : string) (held0 : bool) (es : list Keyboard.event) : bool :=
  fold_left
    (fun h e =>
       match e with
       | Keyboard.KeyDown key' => if decide (key' = key) then true else h
       | Keyboard.KeyUp key' => if decide (key' = key) then false else h
       end)
    es held0.

End Aux.

(** ** Concrete inputs *)

Module Inputs.

(** the memory at construction, with the byte 0x80 stored at address 0 *)
Definition mem_0x80 : ArrayBuffer := DataView.store BytePusher.mem_init 0 0x80.

(** the memory at construction after the keyboard word 0 was written *)
Definition mem_keys0 : ArrayBuffer :=
  DataView.store (DataView.store BytePusher.mem_init 0 0) 1 0.

(** the state of [main] before the first callback, on the memory at
    construction *)
Definition main_init : Main.state :=
  Main.mkState 0 BytePusher.mem_init Keyboard.keyState_init [].

(** a program that waits: [pc] is 8, and the instruction at 8 copies the
    byte at address 0 onto itself and jumps to 8 *)
Definition mem_wait : ArrayBuffer :=
  DataView.store (DataView.store BytePusher.mem_init 4 8) 16 8.

(** a memory whose program counter, at address 2, starts with 0x80 *)
Definition mem_pc_0x80 : ArrayBuffer := DataView.store BytePusher.mem_init 2 0x80.

(** the state of [main] on that memory *)
Definition main_pc_0x80 : Main.state :=
  Main.mkState 0 mem_pc_0x80 Keyboard.keyState_init [].

(** the memory at construction after the keyboard word 0x8000 (key 'f'
    held) was written at address 0 *)
Definition mem_key_f : ArrayBuffer :=
  DataView.store (DataView.store BytePusher.mem_init 0 0x80) 1 0.

(** a memory whose framebuffer is page 1 and whose pixel (2, 0) has
    colour index 217 *)
Definition mem_pixel : ArrayBuffer :=
  DataView.store (DataView.store BytePusher.mem_init 5 1) 0x010002 217.

End Inputs.

(** * Properties *)

(** ** Bytes and 32-bit integers *)

Lemma byte_to_Z_range (b : Byte.byte) : 0 <= byte_to_Z b < 256.
Proof.
  unfold byte_to_Z. pose proof (Byte.to_N_bounded b). lia.
Qed.

Lemma byte_of_Z_to_Z (z : Z) : byte_to_Z (byte_of_Z z) = z mod 256.
Proof.
  unfold byte_to_Z, byte_of_Z.
  assert (Hr : 0 <= z mod 256 < 256) by (apply Z.mod_pos_bound; lia).
  destruct (Byte.of_N (Z.to_N (z mod 256))) as [b|] eqn:E.
  - apply Byte.to_of_N in E. rewrite E. lia.
  - apply Byte.of_N_None_iff in E. lia.
Qed.

Lemma ToInt32_range (x : Z) : - 2 ^ 31 <= JS.ToInt32 x < 2 ^ 31.
Proof.
  unfold JS.ToInt32.
  assert (0 <= (x + 2 ^ 31) mod 2 ^ 32 < 2 ^ 32) by (apply Z.mod_pos_bound; lia).
  lia.
Qed.

Lemma ToInt32_small (x : Z) : - 2 ^ 31 <= x < 2 ^ 31 -> JS.ToInt32 x = x.
Proof.
  intros H. unfold JS.ToInt32. rewrite Z.mod_small; lia.
Qed.

Lemma ToInt32_high (x : Z) : 2 ^ 31 <= x < 2 ^ 32 -> JS.ToInt32 x = x - 2 ^ 32.
Proof.
  intros H. unfold JS.ToInt32.
  replace (x + 2 ^ 31) with (x - 2 ^ 31 + 1 * 2 ^ 32) by lia.
  rewrite Z.mod_add by lia. rewrite Z.mod_small; lia.
Qed.

Lemma sar8_range (w : Z) : - 2 ^ 23 <= JS.sar w 8 < 2 ^ 23.
Proof.
  unfold JS.sar. change (Z.land (JS.ToUint32 8) 31) with 8.
  rewrite Z.shiftr_div_pow2 by lia.
  pose proof (ToInt32_range w) as H.
  split.
  - apply Z.div_le_lower_bound; lia.
  - apply Z.div_lt_upper_bound; lia.
Qed.

(** ** DataView accessors *)

Lemma cell_range (b : ArrayBuffer) (i : Z) : 0 <= DataView.cell b i < 256.
Proof. apply byte_to_Z_range. Qed.

Lemma cell_store (b : ArrayBuffer) (i j v : Z) :
  DataView.cell (DataView.store b i v) j
  = if decide (i = j) then v mod 256 else DataView.cell b j.
Proof.
  unfold DataView.cell, DataView.store; simpl.
  rewrite lookup_insert. destruct (decide (i = j)); simpl; auto.
  apply byte_of_Z_to_Z.
Qed.

Lemma cell_alloc (n i : Z) : DataView.cell (DataView.alloc n) i = 0.
Proof. reflexivity. Qed.

Lemma byteLength_store (b : ArrayBuffer) (i v : Z) :
  byteLength (DataView.store b i v) = byteLength b.
Proof. reflexivity. Qed.

Lemma cell_transfer (n : Z) (b : ArrayBuffer) (i : Z) :
  DataView.cell (DataView.transfer n b) i
  = if (0 <=? i) && (i <? Z.min n (byteLength b)) then DataView.cell b i else 0.
Proof.
  unfold DataView.cell, DataView.transfer; simpl.
  destruct ((0 <=? i) && (i <? Z.min n (byteLength b))) eqn:E.
  - apply andb_true_iff in E as [E1 E2].
    apply Z.leb_le in E1. apply Z.ltb_lt in E2.
    destruct (cells b !! i) as [x|] eqn:Hx.
    + erewrite (map_lookup_filter_Some_2 _ _ i x); eauto.
    + rewrite map_lookup_filter_None_2; auto.
  - rewrite map_lookup_filter_None_2; auto.
    right. intros x _ [H1 H2]. simpl in *.
    apply andb_false_iff in E as [E|E];
      [apply Z.leb_gt in E | apply Z.ltb_ge in E]; lia.
Qed.

Lemma getUint32_range (off : Z) (b b' : ArrayBuffer) (w : Z) :
  DataView.getUint32 off b = (Ok w, b') -> 0 <= w < 2 ^ 32.
Proof.
  unfold DataView.getUint32. destruct (DataView.in_view b off 4); [|discriminate].
  intros [= <- _].
  pose proof (cell_range b off). pose proof (cell_range b (off + 1)).
  pose proof (cell_range b (off + 2)). pose proof (cell_range b (off + 3)).
  lia.
Qed.

(** ** Memory accessors of the BytePusher object *)

Ltac unfold_M :=
  unfold mbind, M_bind, bind, mret, M_ret, ret, throw in *.

Ltac case_if :=
  match goal with
  | |- context [if ?c then _ else _] => destruct c eqn:?
  | H : context [if ?c then _ else _] |- _ => destruct c eqn:?
  end.

Lemma readUint24_unfold (addr : Z) (m : ArrayBuffer) :
  BytePusher.readUint24 addr m
  = if addr >? 0xFFFFFF then (Throw AddressOutOfBounds, m)
    else if DataView.in_view m addr 4
         then (Ok (JS.sar (DataView.cell m addr * 2 ^ 24
                          + DataView.cell m (addr + 1) * 2 ^ 16
                          + DataView.cell m (addr + 2) * 2 ^ 8
                          + DataView.cell m (addr + 3)) 8), m)
         else (Throw RangeError, m).
Proof.
  unfold BytePusher.readUint24, DataView.getUint32. unfold_M.
  repeat case_if; reflexivity.
Qed.

(** [readUint24] never writes. *)
Lemma readUint24_state (addr : Z) (m : ArrayBuffer) :
  (BytePusher.readUint24 addr m).2 = m.
Proof. rewrite readUint24_unfold. repeat case_if; reflexivity. Qed.

(** On an address that passes the guard, [readUint24] either returns a
    signed 24-bit value or fails inside the [DataView]. *)
Lemma readUint24_cases (addr : Z) (m : ArrayBuffer) :
  addr <= 0xFFFFFF ->
  BytePusher.readUint24 addr m = (Throw RangeError, m) \/
  exists v, BytePusher.readUint24 addr m = (Ok v, m) /\ - 2 ^ 23 <= v < 2 ^ 23.
Proof.
  intros Ha. rewrite readUint24_unfold.
  destruct (addr >? 0xFFFFFF) eqn:E; [apply Z.gtb_lt in E; lia|].
  destruct (DataView.in_view m addr 4); [right|left; reflexivity].
  eexists; split; [reflexivity|apply sar8_range].
Qed.

(** What [readUint24] returns on the memory of the machine: the big-endian
    value of the three bytes when the first byte is below 0x80, and that
    value minus 2^24 otherwise. *)
Lemma readUint24_value (addr : Z) (m : ArrayBuffer) :
  byteLength m = 0x1000008 -> 0 <= addr <= 0xFFFFFF ->
  BytePusher.readUint24 addr m
  = (Ok (if DataView.cell m addr <? 128 then Spec.be24 m addr
         else Spec.be24 m addr - 2 ^ 24), m).
Proof.
  intros Hlen Ha. rewrite readUint24_unfold.
  destruct (addr >? 0xFFFFFF) eqn:E; [apply Z.gtb_lt in E; lia|].
  unfold DataView.in_view. rewrite Hlen.
  replace (0 <=? addr) with true by (symmetry; apply Z.leb_le; lia).
  replace (addr + 4 <=? 0x1000008) with true by (symmetry; apply Z.leb_le; lia).
  simpl andb. cbv iota. do 2 f_equal.
  unfold JS.sar, Spec.be24. change (Z.land (JS.ToUint32 8) 31) with 8.
  rewrite Z.shiftr_div_pow2 by lia.
  pose proof (cell_range m addr) as H0. pose proof (cell_range m (addr + 1)) as H1.
  pose proof (cell_range m (addr + 2)) as H2. pose proof (cell_range m (addr + 3)) as H3.
  set (c0 := DataView.cell m addr) in *. set (c1 := DataView.cell m (addr + 1)) in *.
  set (c2 := DataView.cell m (addr + 2)) in *. set (c3 := DataView.cell m (addr + 3)) in *.
  destruct (c0 <? 128) eqn:Hc; [apply Z.ltb_lt in Hc | apply Z.ltb_ge in Hc].
  - rewrite ToInt32_small by lia.
    symmetry. apply (Z.div_unique _ _ _ c3); lia.
  - rewrite ToInt32_high by lia.
    symmetry. apply (Z.div_unique _ _ _ c3); lia.
Qed.

Lemma writeByte_unfold (src dest : Z) (m : ArrayBuffer) :
  BytePusher.writeByte src dest m
  = if (src >? 0xFFFFFF) || (dest >? 0xFFFFFF) then (Throw AddressOutOfBounds, m)
    else match BytePusher.readUint24 dest m with
         | (Ok d, _) =>
             match BytePusher.readUint24 src m with
             | (Ok s, _) =>
                 if DataView.in_view m s 1
                 then DataView.setUint8 d (DataView.cell m s) m
                 else (Throw RangeError, m)
             | (Throw e, _) => (Throw e, m)
             | (OutOfFuel, _) => (OutOfFuel, m)
             end
         | (Throw e, _) => (Throw e, m)
         | (OutOfFuel, _) => (OutOfFuel, m)
         end.
Proof.
  unfold BytePusher.writeByte. case_if; [reflexivity|].
  unfold_M.
  pose proof (readUint24_state dest m) as Hd.
  destruct (BytePusher.readUint24 dest m) as [[d|e|] m1]; simpl in Hd; subst m1;
    try reflexivity.
  pose proof (readUint24_state src m) as Hs.
  destruct (BytePusher.readUint24 src m) as [[s|e|] m1]; simpl in Hs; subst m1;
    try reflexivity.
  unfold DataView.getUint8. case_if; reflexivity.
Qed.

(** [writeByte] throws 'Address out of bounds' exactly when its guard fires. *)
Lemma writeByte_AddressOutOfBounds_iff (src dest : Z) (m : ArrayBuffer) :
  (BytePusher.writeByte src dest m).1 = Throw AddressOutOfBounds
  <-> src > 0xFFFFFF \/ dest > 0xFFFFFF.
Proof.
  rewrite writeByte_unfold.
  destruct ((src >? 0xFFFFFF) || (dest >? 0xFFFFFF)) eqn:G.
  - split; [intros _|reflexivity].
    apply orb_true_iff in G as [G|G]; apply Z.gtb_lt in G; lia.
  - apply orb_false_iff in G as [G1 G2].
    assert (Hs : src <= 0xFFFFFF)
      by (destruct (Z.gtb_spec src 0xFFFFFF); [discriminate|lia]).
    assert (Hd : dest <= 0xFFFFFF)
      by (destruct (Z.gtb_spec dest 0xFFFFFF); [discriminate|lia]).
    split; [|lia].
    destruct (readUint24_cases dest m) as [-> | (d & -> & _)]; [lia|discriminate|].
    destruct (readUint24_cases src m) as [-> | (s & -> & _)]; [lia|discriminate|].
    unfold DataView.setUint8. repeat case_if; discriminate.
Qed.

Lemma gtb_false_of_le (x y : Z) : x <= y -> (x >? y) = false.
Proof. intros H. destruct (Z.gtb_spec x y); [lia|reflexivity]. Qed.

(** C1 (readUint24 returns the big-endian value of three bytes, in
    [0, 0xFFFFFF]): the code shifts with the signed [>>].  On the memory
    whose byte at address 0 is 0x80 and whose other bytes are zero,
    [readUint24(0)] returns -8388608, whereas the big-endian value of the
    bytes at 0, 1, 2 is 8388608. *)
Theorem readUint24_sign_extends :
  BytePusher.readUint24 0 Inputs.mem_0x80 = (Ok (-8388608), Inputs.mem_0x80)
  /\ Spec.be24 Inputs.mem_0x80 0 = 8388608
  /\ byteLength Inputs.mem_0x80 = 0x1000008.
Proof. repeat split; vm_compute; reflexivity. Qed.

(** C4 (the addresses resolved by copyByte are always in range, so the
    byte read and write never fault): on the memory whose byte at address 0
    is 0x80, [writeByte(0, 0)] passes the guard, resolves both addresses to
    -8388608 and the [DataView] throws a RangeError; memory is unchanged. *)
Theorem writeByte_resolved_address_faults :
  (0 >? 0xFFFFFF) || (0 >? 0xFFFFFF) = false
  /\ BytePusher.readUint24 0 Inputs.mem_0x80 = (Ok (-8388608), Inputs.mem_0x80)
  /\ DataView.getUint8 (-8388608) Inputs.mem_0x80 = (Throw RangeError, Inputs.mem_0x80)
  /\ BytePusher.writeByte 0 0 Inputs.mem_0x80 = (Throw RangeError, Inputs.mem_0x80).
Proof. repeat split; vm_compute; reflexivity. Qed.

(** C6: for source and destination addresses that are at most 0xFFFFFF,
    [writeByte(src, dest)] (the specification's copyByte) has the same
    completion and leaves the same memory as reading
    [b = readByte(readUint24(src))] and then storing [b] with the single-byte
    store at [readUint24(dest)]. *)
Theorem writeByte_is_copyByte (src dest : Z) (m : ArrayBuffer) :
  src <= 0xFFFFFF -> dest <= 0xFFFFFF ->
  BytePusher.writeByte src dest m = Spec.copyByte src dest m.
Proof.
  intros Hs Hd. rewrite writeByte_unfold.
  rewrite (gtb_false_of_le _ _ Hs), (gtb_false_of_le _ _ Hd). simpl orb. cbv iota.
  unfold Spec.copyByte, Spec.storeByte, BytePusher.readByte, DataView.getUint8.
  unfold_M.
  destruct (readUint24_cases src m Hs) as [Es | (s & Es & Hrs)];
    destruct (readUint24_cases dest m Hd) as [Ed | (d & Ed & Hrd)];
    rewrite Es; rewrite ?Ed; try reflexivity.
  - rewrite gtb_false_of_le by lia.
    destruct (DataView.in_view m s 1); [rewrite Ed|]; reflexivity.
  - rewrite gtb_false_of_le by lia.
    destruct (DataView.in_view m s 1); [rewrite Ed|reflexivity].
    rewrite gtb_false_of_le by lia. reflexivity.
Qed.

Lemma writeByte_is_copyByte_witness :
  2 <= 0xFFFFFF /\ 5 <= 0xFFFFFF /\
  BytePusher.writeByte 2 5 BytePusher.mem_init
  = Spec.copyByte 2 5 BytePusher.mem_init.
Proof.
  split; [lia|]. split; [lia|].
  apply (writeByte_is_copyByte 2 5 BytePusher.mem_init); lia.
Defined.

(** ** The CPU loop *)

Lemma readUint24_fuel (addr : Z) (m : ArrayBuffer) :
  (BytePusher.readUint24 addr m).1 <> OutOfFuel.
Proof. rewrite readUint24_unfold. repeat case_if; discriminate. Qed.

Lemma writeByte_fuel (src dest : Z) (m : ArrayBuffer) :
  (BytePusher.writeByte src dest m).1 <> OutOfFuel.
Proof.
  rewrite writeByte_unfold. case_if; [discriminate|].
  pose proof (readUint24_fuel dest m) as Hd.
  destruct (BytePusher.readUint24 dest m) as [[d|e|] m1]; simpl in Hd;
    try discriminate; try congruence.
  pose proof (readUint24_fuel src m) as Hs.
  destruct (BytePusher.readUint24 src m) as [[s|e|] m2]; simpl in Hs;
    try discriminate; try congruence.
  unfold DataView.setUint8. repeat case_if; discriminate.
Qed.

Lemma cycles_fuel (n : nat) (pc : Z) (m : ArrayBuffer) :
  (Spec.cycles n pc m).1 <> OutOfFuel.
Proof.
  revert pc m. induction n as [|n IH]; intros pc m; simpl.
  - discriminate.
  - unfold Spec.cycle. unfold_M.
    pose proof (writeByte_fuel pc (pc + 3) m) as Hw.
    destruct (BytePusher.writeByte pc (pc + 3) m) as [[[]|e|] m1]; simpl in Hw;
      try discriminate; try congruence.
    pose proof (readUint24_fuel (pc + 6) m1) as Hr.
    destruct (BytePusher.readUint24 (pc + 6) m1) as [[pc'|e|] m2]; simpl in Hr;
      [apply IH|discriminate|congruence].
Qed.

(** From the loop counter [i], the [for] loop runs the [65536 - i]
    remaining cycles and leaves with [i = 65536]. *)
Lemma cpuLoop_for_cycles (n : nat) :
  forall (fuel : nat) (i pc : Z) (m : ArrayBuffer),
    i + Z.of_nat n = 65536 -> (n <= fuel)%nat ->
    loop_ fuel (fun l : Z * Z => l.1 <? 65536) BytePusher.cpuLoop_body (i, pc) m
    = (pc' ← Spec.cycles n pc; mret (65536, pc')) m.
Proof.
  induction n as [|n IH]; intros fuel i pc m Hi Hfuel.
  - assert (i = 65536) by lia. subst i.
    destruct fuel; reflexivity.
  - destruct fuel as [|fuel]; [lia|].
    cbn [loop_ fst Spec.cycles].
    replace (i <? 65536) with true by (symmetry; apply Z.ltb_lt; lia).
    unfold BytePusher.cpuLoop_body, Spec.cycle. unfold_M.
    destruct (BytePusher.writeByte pc (pc + 3) m) as [[[]|e|] m1]; try reflexivity.
    destruct (BytePusher.readUint24 (pc + 6) m1) as [[pc'|e|] m2]; try reflexivity.
    apply (IH fuel (i + 1) pc' m2); lia.
Qed.

(** With fuel for 65536 turns, the loop of [cpuLoop] is 65536 cycles. *)
Lemma cpuLoop_locals_cycles (fuel N : nat) (m : ArrayBuffer) :
  Z.of_nat N = 65536 -> (N <= fuel)%nat ->
  BytePusher.cpuLoop_locals fuel m
  = (pc0 ← BytePusher.readUint24 2;
     pc ← Spec.cycles N pc0;
     mret (65536, pc)) m.
Proof.
  intros HN Hfuel. unfold BytePusher.cpuLoop_locals. unfold_M.
  destruct (BytePusher.readUint24 2 m) as [[pc0|e|] m1]; try reflexivity.
  apply (cpuLoop_for_cycles N fuel 0 pc0 m1); [lia|exact Hfuel].
Qed.

Lemma cpuLoop_cycles (fuel N : nat) (m : ArrayBuffer) :
  Z.of_nat N = 65536 -> (N <= fuel)%nat ->
  BytePusher.cpuLoop fuel m
  = (pc ← BytePusher.readUint24 2; Spec.cycles N pc;; mret tt) m.
Proof.
  intros HN Hfuel. unfold BytePusher.cpuLoop.
  unfold mbind at 1. unfold M_bind, bind.
  rewrite (cpuLoop_locals_cycles fuel N m HN Hfuel). unfold_M.
  destruct (BytePusher.readUint24 2 m) as [[pc0|e|] m1]; try reflexivity.
  destruct (Spec.cycles N pc0 m1) as [[pc|e|] m2]; reflexivity.
Qed.

Lemma loop_throws_at_once {St L : Type} (fuel : nat) (cond : L -> bool)
    (body : L -> M St L) (l : L) (s s' : St) (e : error) :
  cond l = true -> body l s = (Throw e, s') ->
  loop_ (S fuel) cond body l s = (Throw e, s').
Proof. intros Hc Hb. cbn [loop_]. rewrite Hc, Hb. reflexivity. Qed.

(** The engine of the specification goes round at [pc = 0] once the byte at
    address 0 is zero. *)
Lemma spec_cycles_settled (m : ArrayBuffer) (n : nat) :
  SpecEngine.cycle 0 m = (Ok 0, m) -> SpecEngine.cycles n 0 m = (Ok 0, m).
Proof.
  intros H. induction n as [|n IH]; [reflexivity|].
  cbn [SpecEngine.cycles]. unfold mbind, M_bind, bind. rewrite H. exact IH.
Qed.

Lemma spec_burst_after_first_cycle (m m1 : ArrayBuffer) (pc : Z) :
  SpecEngine.readUint24 2 m = (Ok pc, m) ->
  SpecEngine.cycle pc m = (Ok 0, m1) ->
  SpecEngine.cycle 0 m1 = (Ok 0, m1) ->
  SpecEngine.burst m = (Ok (65536, 0), m1).
Proof.
  intros Hpc H1 H0. unfold SpecEngine.burst.
  assert (HN : Z.to_nat 65536 = S (Z.to_nat 65535)) by lia.
  rewrite HN. generalize (Z.to_nat 65535). intros n.
  unfold mbind at 1. unfold M_bind, bind. rewrite Hpc.
  cbn [SpecEngine.cycles]. unfold mbind, M_bind, bind. rewrite H1.
  rewrite (spec_cycles_settled m1 n H0). reflexivity.
Qed.

(** C5 (each invocation of the instruction engine performs exactly 65536
    iterations of copy and jump from [pc = readUint24(2)]): the [pc] that
    [cpuLoop] reads comes from the sign-extending [readUint24].  On the
    memory whose program counter is 0x800000 (byte 0x80 at address 2), and
    on the empty memory with key 'f' held (word 0x8000 at address 0),
    [cpuLoop] throws a RangeError in its first turn, whatever the fuel, and
    leaves the memory untouched: it completes no iteration.  The engine of
    the specification, which reads 24-bit values unsigned, runs its 65536
    cycles on both memories. *)
Theorem cpuLoop_aborts_in_first_turn (fuel : nat) :
  byteLength Inputs.mem_pc_0x80 = 0x1000008
  /\ BytePusher.cpuLoop_locals (S fuel) Inputs.mem_pc_0x80
     = (Throw RangeError, Inputs.mem_pc_0x80)
  /\ BytePusher.cpuLoop (S fuel) Inputs.mem_pc_0x80
     = (Throw RangeError, Inputs.mem_pc_0x80)
  /\ SpecEngine.burst Inputs.mem_pc_0x80
     = (Ok (65536, 0), DataView.store Inputs.mem_pc_0x80 0 0)
  /\ BytePusher.writeUint16 0 0x8000 BytePusher.mem_init
     = (Ok tt, Inputs.mem_key_f)
  /\ BytePusher.cpuLoop_locals (S fuel) Inputs.mem_key_f
     = (Throw RangeError, Inputs.mem_key_f)
  /\ BytePusher.cpuLoop (S fuel) Inputs.mem_key_f
     = (Throw RangeError, Inputs.mem_key_f)
  /\ SpecEngine.burst Inputs.mem_key_f
     = (Ok (65536, 0), DataView.store Inputs.mem_key_f 0 0).
Proof.
  assert (L1 : BytePusher.cpuLoop_locals (S fuel) Inputs.mem_pc_0x80
               = (Throw RangeError, Inputs.mem_pc_0x80)).
  { unfold BytePusher.cpuLoop_locals. unfold mbind, M_bind, bind.
    replace (BytePusher.readUint24 2 Inputs.mem_pc_0x80)
      with (Ok (-8388608), Inputs.mem_pc_0x80) by (vm_compute; reflexivity).
    apply loop_throws_at_once; [reflexivity|vm_compute; reflexivity]. }
  assert (L2 : BytePusher.cpuLoop_locals (S fuel) Inputs.mem_key_f
               = (Throw RangeError, Inputs.mem_key_f)).
  { unfold BytePusher.cpuLoop_locals. unfold mbind, M_bind, bind.
    replace (BytePusher.readUint24 2 Inputs.mem_key_f)
      with (Ok 0, Inputs.mem_key_f) by (vm_compute; reflexivity).
    apply loop_throws_at_once; [reflexivity|vm_compute; reflexivity]. }
  split; [reflexivity|]. split; [exact L1|]. split.
  { unfold BytePusher.cpuLoop. unfold mbind, M_bind, bind. rewrite L1. reflexivity. }
  split.
  { apply (spec_burst_after_first_cycle _ _ 0x800000); vm_compute; reflexivity. }
  split; [vm_compute; reflexivity|]. split; [exact L2|]. split.
  { unfold BytePusher.cpuLoop. unfold mbind, M_bind, bind. rewrite L2. reflexivity. }
  apply (spec_burst_after_first_cycle _ _ 0); vm_compute; reflexivity.
Qed.

(** ** Loading an image *)

(** C7: [setMemory(buffer)] succeeds for every buffer of at most 0x1000008
    bytes and then the memory is the image zero-padded to exactly 0x1000008
    bytes, whatever it held before; it throws the image-too-large error, and
    leaves the memory as it was, exactly when the buffer is longer.  In
    particular 0x1000008 bytes are accepted and 0x1000009 bytes refused. *)
Theorem setMemory_capacity (buffer m : ArrayBuffer) :
  (byteLength buffer <= 0x1000008 ->
   exists m',
     BytePusher.setMemory buffer m = (Ok tt, m')
     /\ byteLength m' = 0x1000008
     /\ forall i, DataView.getUint8 i m'
                  = if (0 <=? i) && (i <? 0x1000008)
                    then (Ok (Spec.padded buffer i), m')
                    else (Throw RangeError, m'))
  /\ ((BytePusher.setMemory buffer m).1 = Throw ImageTooLarge
      <-> byteLength buffer > 0x1000008)
  /\ (byteLength buffer > 0x1000008 -> (BytePusher.setMemory buffer m).2 = m)
  /\ (byteLength buffer = 0x1000008 -> (BytePusher.setMemory buffer m).1 = Ok tt)
  /\ (byteLength buffer = 0x1000009
      -> (BytePusher.setMemory buffer m).1 = Throw ImageTooLarge).
Proof.
  unfold BytePusher.setMemory.
  destruct (Z.gtb_spec (byteLength buffer) 0x1000008) as [Hgt|Hle].
  - repeat split; intros; try reflexivity; lia.
  - split; [intros _|repeat split; intros; try reflexivity; try discriminate; lia].
    eexists. split; [reflexivity|]. split; [reflexivity|].
    intros i. unfold DataView.getUint8, DataView.in_view, Spec.padded.
    cbn [byteLength DataView.transfer].
    replace (i + 1 <=? 0x1000008) with (i <? 0x1000008)
      by (destruct (Z.ltb_spec i 0x1000008), (Z.leb_spec (i + 1) 0x1000008); lia).
    destruct ((0 <=? i) && (i <? 0x1000008)) eqn:E; [|reflexivity].
    do 2 f_equal. rewrite cell_transfer.
    rewrite Z.min_r by lia. reflexivity.
Qed.

Lemma setMemory_capacity_witness :
  byteLength (DataView.alloc 0x1000008) <= 0x1000008
  /\ (exists m',
        BytePusher.setMemory (DataView.alloc 0x1000008) Inputs.mem_0x80 = (Ok tt, m')
        /\ byteLength m' = 0x1000008
        /\ forall i, DataView.getUint8 i m'
                     = if (0 <=? i) && (i <? 0x1000008)
                       then (Ok (Spec.padded (DataView.alloc 0x1000008) i), m')
                       else (Throw RangeError, m'))
  /\ byteLength (DataView.alloc 0x1000009) = 0x1000009
  /\ (BytePusher.setMemory (DataView.alloc 0x1000009) Inputs.mem_0x80).1
     = Throw ImageTooLarge.
Proof.
  split; [simpl; lia|]. split.
  - apply (setMemory_capacity (DataView.alloc 0x1000008) Inputs.mem_0x80).
    simpl; lia.
  - split; [reflexivity|].
    apply (setMemory_capacity (DataView.alloc 0x1000009) Inputs.mem_0x80).
    reflexivity.
Defined.

(** ** The length of the memory *)

Lemma loop_invariant {St L : Type} (P : St -> Prop) (cond : L -> bool)
    (body : L -> M St L) :
  (forall l s, P s -> P (body l s).2) ->
  forall fuel l s, P s -> P (loop_ fuel cond body l s).2.
Proof.
  intros Hbody. induction fuel as [|fuel IH]; intros l s Hs; simpl.
  - destruct (cond l); exact Hs.
  - destruct (cond l); [|exact Hs].
    specialize (Hbody l s Hs).
    destruct (body l s) as [[l'|e|] s']; simpl in Hbody; auto.
Qed.

Lemma writeUint16_length (src value : Z) (m : ArrayBuffer) :
  byteLength (BytePusher.writeUint16 src value m).2 = byteLength m.
Proof.
  unfold BytePusher.writeUint16, DataView.setUint16. unfold_M.
  repeat case_if; reflexivity.
Qed.

Lemma readByte_state (addr : Z) (m : ArrayBuffer) :
  (BytePusher.readByte addr m).2 = m.
Proof.
  unfold BytePusher.readByte, DataView.getUint8. unfold_M.
  repeat case_if; reflexivity.
Qed.

Lemma writeByte_length (src dest : Z) (m : ArrayBuffer) :
  byteLength (BytePusher.writeByte src dest m).2 = byteLength m.
Proof.
  rewrite writeByte_unfold. case_if; [reflexivity|].
  destruct (BytePusher.readUint24 dest m) as [[d|e|] m1]; try reflexivity.
  destruct (BytePusher.readUint24 src m) as [[s|e|] m2]; try reflexivity.
  unfold DataView.setUint8. repeat case_if; reflexivity.
Qed.

Lemma cpuLoop_length (fuel : nat) (m : ArrayBuffer) :
  byteLength (BytePusher.cpuLoop fuel m).2 = byteLength m.
Proof.
  unfold BytePusher.cpuLoop, BytePusher.cpuLoop_locals. unfold_M.
  pose proof (readUint24_state 2 m) as Hr.
  destruct (BytePusher.readUint24 2 m) as [[pc|e|] m1]; simpl in Hr; subst m1;
    try reflexivity.
  pose proof (loop_invariant (fun s => byteLength s = byteLength m)
                (fun l : Z * Z => l.1 <? 65536) BytePusher.cpuLoop_body) as Hinv.
  lapply Hinv.
  - intros H. specialize (H fuel (0, pc) m eq_refl).
    destruct (loop_ fuel _ BytePusher.cpuLoop_body (0, pc) m) as [[l|e|] m2];
      exact H.
  - intros [i pc0] s Hs. unfold BytePusher.cpuLoop_body. unfold_M.
    pose proof (writeByte_length pc0 (pc0 + 3) s) as Hw.
    destruct (BytePusher.writeByte pc0 (pc0 + 3) s) as [[[]|e|] s1]; simpl in *;
      try congruence.
    pose proof (readUint24_state (pc0 + 6) s1) as Hr.
    destruct (BytePusher.readUint24 (pc0 + 6) s1) as [[pc'|e|] s2]; simpl in *;
      congruence.
Qed.

Lemma step_length (m : ArrayBuffer) (o : Machine.op) :
  byteLength m = 0x1000008 -> byteLength (Machine.step m o) = 0x1000008.
Proof.
  intros Hm. destruct o; simpl.
  - rewrite readUint24_state. exact Hm.
  - rewrite writeUint16_length. exact Hm.
  - rewrite readByte_state. exact Hm.
  - rewrite writeByte_length. exact Hm.
  - rewrite cpuLoop_length. exact Hm.
  - unfold BytePusher.setMemory. case_if; [exact Hm|reflexivity].
  - unfold BytePusher.getFramebufferStartAddress. unfold_M.
    pose proof (readByte_state 5 m) as Hr.
    destruct (BytePusher.readByte 5 m) as [[b|e|] m1]; simpl in *; congruence.
Qed.

(** C9: the memory has 0x1000008 bytes at construction, and after any
    sequence of operations of the memory object (reads, writes, the CPU loop
    with any fuel, and [setMemory] with any buffer, accepted or refused,
    whether the operation returns or throws) it still has exactly 0x1000008
    bytes. *)
Theorem memory_length_invariant (ops : list Machine.op) :
  byteLength BytePusher.mem_init = 0x1000008
  /\ byteLength (Machine.run ops) = 0x1000008.
Proof.
  split; [reflexivity|].
  unfold Machine.run.
  assert (H : byteLength BytePusher.mem_init = 0x1000008) by reflexivity.
  revert H. generalize BytePusher.mem_init.
  induction ops as [|o ops IH]; intros m Hm; simpl.
  - exact Hm.
  - apply IH. apply step_length. exact Hm.
Qed.

(** ** The keyboard word *)

Lemma key_bits_range (s : Z) : Spec.key_bits s -> 0 <= s < 2 ^ 16.
Proof.
  unfold Spec.key_bits. intros H.
  assert (E : Z.land s (Z.ones 16) = s).
  { rewrite <- H at 1. rewrite <- Z.land_assoc.
    change (Z.land 0xFFFE (Z.ones 16)) with 0xFFFE. exact H. }
  rewrite Z.land_ones in E by lia.
  pose proof (Z.mod_pos_bound s (2 ^ 16)). lia.
Qed.

Lemma key_bits_bit0 (s : Z) : Spec.key_bits s -> Z.testbit s 0 = false.
Proof.
  unfold Spec.key_bits. intros H. rewrite <- H. rewrite Z.land_spec.
  change (Z.testbit 0xFFFE 0) with false. apply andb_false_r.
Qed.

Lemma keymap_list :
  map_to_list Keyboard.keymap
  = [("7", 0x80); ("3", 0x8); ("c", 0x1000); ("5", 0x20); ("e", 0x4000);
     ("9", 0x200); ("1", 0x2); ("a", 0x400); ("6", 0x40); ("f", 0x8000);
     ("2", 0x4); ("b", 0x800); ("4", 0x10); ("d", 0x2000); ("8", 0x100)]%string.
Proof. vm_compute. reflexivity. Qed.

Ltac keymap_cases H :=
  apply elem_of_map_to_list in H; rewrite keymap_list in H;
  repeat (apply elem_of_cons in H as [H|H]; [inversion H; subst; clear H|]);
  [..|apply elem_of_nil in H; destruct H].

Lemma keymap_mask (key : string) (k : Z) :
  Keyboard.keymap !! key = Some k ->
  exists n, 1 <= n <= 15 /\ k = 2 ^ n.
Proof.
  intros H. keymap_cases H;
    [exists 7|exists 3|exists 12|exists 5|exists 14|exists 9|exists 1|exists 10
    |exists 6|exists 15|exists 2|exists 11|exists 4|exists 13|exists 8];
    (split; [lia|reflexivity]).
Qed.

Lemma keymap_key_bits (key : string) (k : Z) :
  Keyboard.keymap !! key = Some k -> Spec.key_bits k.
Proof. intros H. keymap_cases H; reflexivity. Qed.

Lemma keymap_injective (key1 key2 : string) (k : Z) :
  Keyboard.keymap !! key1 = Some k -> Keyboard.keymap !! key2 = Some k ->
  key1 = key2.
Proof.
  intros H1 H2. keymap_cases H1; keymap_cases H2; reflexivity.
Qed.

Lemma keydown_key_bits (key : string) (s : Z) :
  Spec.key_bits s -> Spec.key_bits (Keyboard.keydown key s).
Proof.
  intros Hs. unfold Keyboard.keydown.
  destruct (Keyboard.keymap !! key) as [k|] eqn:E; [|exact Hs].
  pose proof (keymap_key_bits _ _ E) as Hk.
  pose proof (key_bits_range _ Hs). pose proof (key_bits_range _ Hk).
  unfold JS.bor. rewrite !ToInt32_small by lia.
  unfold Spec.key_bits in *. rewrite Z.land_lor_distr_l, Hs, Hk. reflexivity.
Qed.

Lemma keyup_key_bits (key : string) (s : Z) :
  Spec.key_bits s -> Spec.key_bits (Keyboard.keyup key s).
Proof.
  intros Hs. unfold Keyboard.keyup.
  destruct (Keyboard.keymap !! key) as [k|] eqn:E; [|exact Hs].
  pose proof (keymap_key_bits _ _ E) as Hk.
  pose proof (key_bits_range _ Hs). pose proof (key_bits_range _ Hk).
  unfold JS.band, JS.bnot. rewrite (ToInt32_small k) by lia.
  rewrite (ToInt32_small s) by lia.
  rewrite ToInt32_small by (unfold Z.lnot; lia).
  unfold Spec.key_bits in *.
  rewrite <- Z.land_assoc, (Z.land_comm (Z.lnot k)), Z.land_assoc, Hs.
  reflexivity.
Qed.

Lemma dispatch_all_key_bits (es : list Keyboard.event) :
  Spec.key_bits (Keyboard.dispatch_all es).
Proof.
  unfold Keyboard.dispatch_all.
  assert (H : Spec.key_bits Keyboard.keyState_init) by reflexivity.
  revert H. generalize Keyboard.keyState_init.
  induction es as [|e es IH]; intros s Hs; simpl; [exact Hs|].
  apply IH. destruct e; simpl; [apply keydown_key_bits|apply keyup_key_bits]; exact Hs.
Qed.

(** C10: the key map has exactly the 15 keys '1'-'9' and 'a'-'f'; each is
    mapped to a single-bit mask 2^n with 1 <= n <= 15 (0x2 to 0x8000) and
    no two keys share a mask; hence, from key state 0, after any sequence of
    keydown and keyup events (on any key names) the keyboard word is in
    [0, 0xFFFF] and its bit 0 is clear. *)
Theorem keymap_never_sets_bit0 :
  size Keyboard.keymap = 15%nat
  /\ (forall key : string,
        is_Some (Keyboard.keymap !! key)
        <-> In key ["1"; "2"; "3"; "4"; "5"; "6"; "7"; "8"; "9";
                    "a"; "b"; "c"; "d"; "e"; "f"]%string)
  /\ (forall (key : string) (k : Z),
        Keyboard.keymap !! key = Some k -> exists n, 1 <= n <= 15 /\ k = 2 ^ n)
  /\ (forall (key1 key2 : string) (k : Z),
        Keyboard.keymap !! key1 = Some k -> Keyboard.keymap !! key2 = Some k ->
        key1 = key2)
  /\ (forall es : list Keyboard.event,
        0 <= Keyboard.dispatch_all es <= 0xFFFF
        /\ Z.testbit (Keyboard.dispatch_all es) 0 = false).
Proof.
  split; [vm_compute; reflexivity|].
  split.
  { intros key. split.
    - intros [k H]. keymap_cases H; simpl; tauto.
    - intros H. simpl in H.
      repeat (destruct H as [<-|H]; [vm_compute; eauto|]). destruct H. }
  split; [exact keymap_mask|].
  split; [exact keymap_injective|].
  intros es. pose proof (dispatch_all_key_bits es) as H.
  split; [pose proof (key_bits_range _ H); lia|apply key_bits_bit0; exact H].
Qed.

(** ** More fuel does not change a loop that ended *)

Lemma bind_fuel_mono {St A B : Type} (m m' : M St A) (k k' : A -> M St B)
    (s : St) :
  ((m ≫= k) s).1 <> OutOfFuel ->
  ((m s).1 <> OutOfFuel -> m' s = m s) ->
  (forall a s1, (k a s1).1 <> OutOfFuel -> k' a s1 = k a s1) ->
  (m' ≫= k') s = (m ≫= k) s.
Proof.
  unfold_M. intros H Hm Hk.
  destruct (m s) as [[a|e|] s1] eqn:E; simpl in *.
  - rewrite Hm by discriminate. apply Hk. exact H.
  - rewrite Hm by discriminate. reflexivity.
  - congruence.
Qed.

Lemma loop_fuel_mono {St L : Type} (cond : L -> bool) (body body' : L -> M St L) :
  (forall l s, (body l s).1 <> OutOfFuel -> body' l s = body l s) ->
  forall (fuel fuel' : nat) (l : L) (s : St),
    (fuel <= fuel')%nat ->
    (loop_ fuel cond body l s).1 <> OutOfFuel ->
    loop_ fuel' cond body' l s = loop_ fuel cond body l s.
Proof.
  intros Hbody. induction fuel as [|fuel IH]; intros fuel' l s Hle H.
  - simpl in *. destruct (cond l) eqn:C; simpl in H; [congruence|].
    destruct fuel'; simpl; rewrite C; reflexivity.
  - destruct fuel' as [|fuel']; [lia|]. simpl in *.
    destruct (cond l) eqn:C; [|reflexivity].
    destruct (body l s) as [[l'|e|] s'] eqn:E.
    + rewrite Hbody by (rewrite E; discriminate). rewrite E.
      apply IH; [lia|exact H].
    + rewrite Hbody by (rewrite E; discriminate). rewrite E. reflexivity.
    + simpl in H. congruence.
Qed.

Lemma initPalette_b_mono (fuel fuel' : nat) (r g i : Z) (s : ArrayBuffer) :
  (fuel <= fuel')%nat ->
  (Screen.initPalette_b fuel r g i s).1 <> OutOfFuel ->
  Screen.initPalette_b fuel' r g i s = Screen.initPalette_b fuel r g i s.
Proof.
  intros Hle H. unfold Screen.initPalette_b in *.
  apply bind_fuel_mono; [exact H| |reflexivity].
  intros H'. apply loop_fuel_mono; auto.
Qed.

Lemma initPalette_g_mono (fuel fuel' : nat) (r i : Z) (s : ArrayBuffer) :
  (fuel <= fuel')%nat ->
  (Screen.initPalette_g fuel r i s).1 <> OutOfFuel ->
  Screen.initPalette_g fuel' r i s = Screen.initPalette_g fuel r i s.
Proof.
  intros Hle H. unfold Screen.initPalette_g in *.
  apply bind_fuel_mono; [exact H| |reflexivity].
  intros H'. apply loop_fuel_mono; auto.
  intros l s1 Hb. apply bind_fuel_mono; [exact Hb| |reflexivity].
  intros Hb'. apply initPalette_b_mono; auto.
Qed.

Lemma initPalette_r_mono (fuel fuel' : nat) (i : Z) (s : ArrayBuffer) :
  (fuel <= fuel')%nat ->
  (Screen.initPalette_r fuel i s).1 <> OutOfFuel ->
  Screen.initPalette_r fuel' i s = Screen.initPalette_r fuel i s.
Proof.
  intros Hle H. unfold Screen.initPalette_r in *.
  apply bind_fuel_mono; [exact H| |reflexivity].
  intros H'. apply loop_fuel_mono; auto.
  intros l s1 Hb. apply bind_fuel_mono; [exact Hb| |reflexivity].
  intros Hb'. apply initPalette_g_mono; auto.
Qed.

Lemma initPalette_mono (fuel fuel' : nat) (s : ArrayBuffer) :
  (fuel <= fuel')%nat ->
  (Screen.initPalette fuel s).1 <> OutOfFuel ->
  Screen.initPalette fuel' s = Screen.initPalette fuel s.
Proof.
  intros Hle H. unfold Screen.initPalette in *.
  apply bind_fuel_mono; [exact H| |].
  - intros H'. apply initPalette_r_mono; auto.
  - intros _ s1 H1. apply bind_fuel_mono; [exact H1| |reflexivity].
    intros H2. unfold Screen.initPalette_black in *. apply loop_fuel_mono; auto.
Qed.

(** ** The palette *)

Lemma range_forallb (f : Z -> bool) (lo : Z) (n : nat) :
  forallb f (Spec.range lo n) = true ->
  forall i, lo <= i < lo + Z.of_nat n -> f i = true.
Proof.
  intros H i Hi. rewrite forallb_forall in H. apply H.
  apply in_map_iff. exists (Z.to_nat (i - lo)). split; [lia|].
  apply in_seq. lia.
Qed.

Lemma palette_check_true :
  Spec.palette_check (Screen.initPalette 20 Screen.palette_init) = true.
Proof. vm_compute. reflexivity. Qed.

Lemma entry_is_true (p : ArrayBuffer) (i v : Z) :
  Spec.entry_is p i v = true -> Screen.entry p i = Ok v.
Proof.
  unfold Spec.entry_is. destruct (Screen.entry p i); try discriminate.
  intros H. apply Z.eqb_eq in H. congruence.
Qed.

Lemma palette_check_sound (r : result unit * ArrayBuffer) :
  Spec.palette_check r = true ->
  r.1 = Ok tt
  /\ (forall i, 0 <= i <= 215 -> Screen.entry r.2 i = Ok (Spec.websafe i))
  /\ (forall i, 216 <= i <= 255 ->
        Screen.entry r.2 i = Ok (if Z.even i then Spec.opaque_black else 0)).
Proof.
  intros H. unfold Spec.palette_check in H.
  destruct r as [r p]. cbn [fst snd] in *.
  apply andb_true_iff in H as [H Hblack].
  apply andb_true_iff in H as [Hok Hcube].
  split; [destruct r as [[]| |]; [reflexivity|discriminate|discriminate]|].
  split; intros i Hi; apply entry_is_true.
  - apply (range_forallb _ 0 216 Hcube). lia.
  - apply (range_forallb _ 216 40 Hblack). lia.
Qed.

(** C3 (after initPalette, entries 0-215 are the web-safe cube and entries
    216-255 are opaque black): with any fuel of at least 20, [initPalette]
    returns; entries 0 to 215 are the cube, but the second loop increments
    its counter twice per turn, so that among the entries 216 to 255 only
    the even ones are set to 0x000000FF: the odd ones keep the zero of the
    fresh array.  Entry 217 is 0x00000000, not opaque black. *)
Theorem initPalette_leaves_odd_entries (fuel : nat) :
  (Screen.initPalette (20 + fuel) Screen.palette_init).1 = Ok tt
  /\ (forall i, 0 <= i <= 215 ->
        Screen.entry (Screen.initPalette (20 + fuel) Screen.palette_init).2 i
        = Ok (Spec.websafe i))
  /\ (forall i, 216 <= i <= 255 ->
        Screen.entry (Screen.initPalette (20 + fuel) Screen.palette_init).2 i
        = Ok (if Z.even i then Spec.opaque_black else 0))
  /\ Screen.entry (Screen.initPalette (20 + fuel) Screen.palette_init).2 217
     = Ok 0
  /\ Spec.opaque_black = 0xFF.
Proof.
  destruct (palette_check_sound _ palette_check_true) as (Hret & Hcube & Hblack).
  assert (E : Screen.initPalette (20 + fuel)%nat Screen.palette_init
              = Screen.initPalette 20 Screen.palette_init).
  { apply initPalette_mono; [lia|]. rewrite Hret. discriminate. }
  generalize dependent (Screen.initPalette 20 Screen.palette_init).
  intros r Hret Hcube Hblack E. rewrite E.
  split; [exact Hret|]. split; [exact Hcube|]. split; [exact Hblack|].
  split; [apply (Hblack 217); lia|reflexivity].
Qed.

(** ** The frame loop *)

Lemma frame_executed_refl (st : Main.state) : Main.frame_executed st st = false.
Proof. unfold Main.frame_executed. apply Nat.ltb_irrefl. Qed.

(** A tick that comes less than [frameDuration] after [lastFrameTime] does
    nothing. *)
Lemma tick_idle (fuel : nat) (st : Main.state) (time : float) :
  (Main.frameDuration <=? time - Main.lastFrameTime st)%float = false ->
  Main.tick fuel st time = st.
Proof.
  intros H. unfold Main.tick, Main.loop. rewrite H. reflexivity.
Qed.

Lemma onMem_frame {A : Type} (c : M ArrayBuffer A) (st : Main.state) :
  Main.lastFrameTime (Main.onMem c st).2 = Main.lastFrameTime st
  /\ Main.calls (Main.onMem c st).2 = Main.calls st.
Proof.
  unfold Main.onMem. destruct (c (Main.mem st)) as [r m]. split; reflexivity.
Qed.

Lemma bind_state {St A B : Type} (Q : St -> Prop) (m : M St A)
    (k : A -> M St B) (s : St) :
  Q (m s).2 -> (forall a s1, Q s1 -> Q (k a s1).2) -> Q ((m ≫= k) s).2.
Proof.
  unfold_M. intros Hm Hk. destruct (m s) as [[a|e|] s1]; simpl in *; auto.
Qed.

(** The frame keeps [lastFrameTime] and only appends to the log, starting
    with the keyboard write. *)
Lemma frame_effects (fuel : nat) (st : Main.state) :
  Main.lastFrameTime (Main.frame fuel st).2 = Main.lastFrameTime st
  /\ exists cs, Main.calls (Main.frame fuel st).2
                = Main.calls st ++ Main.WriteUint16 0 (Main.keyState st) :: cs.
Proof.
  set (Q := fun s : Main.state =>
              Main.lastFrameTime s = Main.lastFrameTime st
              /\ exists cs, Main.calls s
                 = Main.calls st ++ Main.WriteUint16 0 (Main.keyState st) :: cs).
  assert (Hlog : forall c s, Q s -> Q (Main.log c s).2).
  { intros c s [Ht [cs Hc]]. split; [exact Ht|].
    exists (cs ++ [c]). simpl. rewrite Hc, <- app_assoc. reflexivity. }
  assert (Hmem : forall A (c : M ArrayBuffer A) s, Q s -> Q (Main.onMem c s).2).
  { intros A c s [Ht Hc]. unfold Q.
    destruct (onMem_frame c s) as [-> ->]. auto. }
  change (Q (Main.frame fuel st).2). unfold Main.frame.
  apply bind_state.
  { split; [reflexivity|]. exists []. reflexivity. }
  intros _ s1 H1. apply bind_state; [apply Hmem; exact H1|].
  intros _ s2 H2. apply bind_state; [apply Hlog; exact H2|].
  intros _ s3 H3. apply bind_state; [apply Hmem; exact H3|].
  intros _ s4 H4. apply bind_state; [apply Hmem; exact H4|].
  intros fb s5 H5. apply bind_state; [apply Hlog; exact H5|].
  intros _ s6 H6. apply Hlog. exact H6.
Qed.

(** A tick that comes at least [frameDuration] after [lastFrameTime] moves
    [lastFrameTime] to [time - delta % frameDuration] and enters the frame. *)
Lemma tick_due (fuel : nat) (st : Main.state) (time : float) :
  (Main.frameDuration <=? time - Main.lastFrameTime st)%float = true ->
  Main.lastFrameTime (Main.tick fuel st time)
  = (time - Number.rem (time - Main.lastFrameTime st) Main.frameDuration)%float
  /\ Main.frame_executed st (Main.tick fuel st time) = true.
Proof.
  intros H.
  set (st1 := Main.mkState
                (time - Number.rem (time - Main.lastFrameTime st) Main.frameDuration)
                (Main.mem st) (Main.keyState st) (Main.calls st)).
  assert (E : Main.tick fuel st time = (Main.frame fuel st1).2).
  { unfold Main.tick, Main.loop. rewrite H. reflexivity. }
  rewrite E.
  destruct (frame_effects fuel st1) as [Ht [cs Hc]].
  split; [rewrite Ht; reflexivity|].
  unfold Main.frame_executed. rewrite Hc. subst st1. simpl Main.calls.
  rewrite length_app. simpl. apply Nat.ltb_lt. lia.
Qed.

(** C2, as the specification states it, fails on the code: at the tick with
    timestamp 16, [delta = 16] is below [frameDuration = 1000/60], so no
    frame executes there. *)
Lemma scheduler_example_fails :
  ~ Spec.scheduler_example (Z.to_nat 65536) Inputs.main_init.
Proof.
  unfold Spec.scheduler_example. cbv zeta. intros (_ & _ & H & _).
  assert (E1 : Main.tick (Z.to_nat 65536) Inputs.main_init 0 = Inputs.main_init)
    by (apply tick_idle; reflexivity).
  rewrite E1 in H.
  assert (E2 : Main.tick (Z.to_nat 65536) Inputs.main_init 8 = Inputs.main_init)
    by (apply tick_idle; reflexivity).
  rewrite E2 in H.
  assert (E3 : Main.tick (Z.to_nat 65536) Inputs.main_init 16 = Inputs.main_init)
    by (apply tick_idle; reflexivity).
  rewrite E3 in H.
  rewrite frame_executed_refl in H. discriminate.
Qed.

(** C2, amended: from [lastFrameTime = 0] (any memory, key state and fuel),
    fed the timestamps 0, 8, 16, 24, 33, the loop executes a frame at the
    tick with timestamp 24 and at no other tick; after the tick at 33
    [lastFrameTime] is [24 - 24 % frameDuration], which is [frameDuration]
    itself (16.666666666666668) and not 33. *)
Theorem scheduler_runs_frame_at_24 (fuel : nat) (mem : ArrayBuffer)
    (keyState : Z) (calls : list Main.call) :
  let st0 := Main.mkState 0 mem keyState calls in
  let st1 := Main.tick fuel st0 0%float in
  let st2 := Main.tick fuel st1 8%float in
  let st3 := Main.tick fuel st2 16%float in
  let st4 := Main.tick fuel st3 24%float in
  let st5 := Main.tick fuel st4 33%float in
  Main.frame_executed st0 st1 = false /\
  Main.frame_executed st1 st2 = false /\
  Main.frame_executed st2 st3 = false /\
  Main.frame_executed st3 st4 = true /\
  Main.frame_executed st4 st5 = false /\
  Main.lastFrameTime st5 = (24 - Number.rem 24 Main.frameDuration)%float /\
  Main.lastFrameTime st5 = Main.frameDuration /\
  Main.frameDuration = 0x1.0aaaaaaaaaaabp+4%float /\
  Main.lastFrameTime st5 <> 33%float.
Proof.
  intros st0 st1 st2 st3 st4 st5.
  assert (E1 : st1 = st0) by (apply tick_idle; reflexivity).
  assert (E2 : st2 = st0) by (subst st2; rewrite E1; apply tick_idle; reflexivity).
  assert (E3 : st3 = st0) by (subst st3; rewrite E2; apply tick_idle; reflexivity).
  destruct (tick_due fuel st0 24%float eq_refl) as [Ht Hf].
  assert (Ht4 : Main.lastFrameTime st4 = Main.frameDuration)
    by (subst st4; rewrite E3, Ht; reflexivity).
  assert (E5 : st5 = st4)
    by (apply tick_idle; rewrite Ht4; reflexivity).
  rewrite E5, E3, E2, E1.
  repeat split; try apply frame_executed_refl.
  - subst st4. rewrite E3. exact Hf.
  - rewrite Ht4. reflexivity.
  - exact Ht4.
  - rewrite Ht4. intros Heq.
    assert (Hc : (Main.frameDuration <? 33)%float = true) by reflexivity.
    rewrite Heq in Hc. vm_compute in Hc. discriminate.
Qed.

(** On the memory left by the keyboard write of a zero key state, every
    cycle copies the byte at address 0 onto itself and jumps to 0. *)
Lemma cycles_zero_memory (n : nat) :
  Spec.cycles n 0 Inputs.mem_keys0 = (Ok 0, Inputs.mem_keys0).
Proof.
  induction n as [|n IH]; [reflexivity|].
  cbn [Spec.cycles]. unfold mbind, M_bind, bind.
  replace (Spec.cycle 0 Inputs.mem_keys0) with (Ok 0, Inputs.mem_keys0)
    by (vm_compute; reflexivity).
  exact IH.
Qed.

Lemma cpuLoop_zero_memory (fuel : nat) :
  (Z.to_nat 65536 <= fuel)%nat ->
  BytePusher.cpuLoop fuel Inputs.mem_keys0 = (Ok tt, Inputs.mem_keys0).
Proof.
  assert (HN : Z.of_nat (Z.to_nat 65536) = 65536) by (rewrite Z2Nat.id; lia).
  generalize dependent (Z.to_nat 65536). intros N HN Hfuel.
  rewrite (cpuLoop_cycles fuel N _ HN Hfuel). unfold_M.
  replace (BytePusher.readUint24 2 Inputs.mem_keys0)
    with (Ok 0, Inputs.mem_keys0) by (vm_compute; reflexivity).
  rewrite cycles_zero_memory. reflexivity.
Qed.

Lemma loop_due (fuel : nat) (st : Main.state) (time : float) :
  (Main.frameDuration <=? time - Main.lastFrameTime st)%float = true ->
  Main.loop fuel time st
  = Main.frame fuel
      (Main.mkState
         (time - Number.rem (time - Main.lastFrameTime st) Main.frameDuration)
         (Main.mem st) (Main.keyState st) (Main.calls st)).
Proof. intros H. unfold Main.loop. rewrite H. reflexivity. Qed.

(** A frame whose three calls on the memory object return makes four calls
    and returns. *)
Lemma frame_returns (fuel : nat) (st : Main.state) (m1 m2 : ArrayBuffer) (fb : Z) :
  BytePusher.writeUint16 0 (Main.keyState st) (Main.mem st) = (Ok tt, m1) ->
  BytePusher.cpuLoop fuel m1 = (Ok tt, m2) ->
  BytePusher.getFramebufferStartAddress m2 = (Ok fb, m2) ->
  Main.frame fuel st
  = (Ok tt,
     Main.mkState (Main.lastFrameTime st) m2 (Main.keyState st)
       (Main.calls st ++ [Main.WriteUint16 0 (Main.keyState st); Main.CpuLoop;
                          Main.UpdateBuffer fb; Main.Draw])).
Proof.
  intros H1 H2 H3. unfold Main.frame, Main.onMem, Main.log. unfold_M.
  cbn [Main.mem Main.keyState Main.lastFrameTime Main.calls].
  rewrite H1. cbn [Main.mem Main.keyState Main.lastFrameTime Main.calls].
  rewrite H2. cbn [Main.mem Main.keyState Main.lastFrameTime Main.calls].
  rewrite H3. cbn [Main.mem Main.keyState Main.lastFrameTime Main.calls].
  rewrite <- !app_assoc. reflexivity.
Qed.

(** C8 (once per executed frame the audio decoder extracts and converts 256
    samples): the code has no audio decoder.  At the tick with timestamp 17
    on the initial state the loop executes a frame, which completes, and the
    calls it makes are the keyboard write, the CPU loop, the screen update
    and the draw; [loop] ends there, on its TODO comment. *)
Theorem loop_frame_has_no_audio :
  Main.loop (Z.to_nat 65536) 17%float Inputs.main_init
  = (Ok tt,
     Main.mkState (17 - Number.rem 17 Main.frameDuration)%float
       Inputs.mem_keys0 Keyboard.keyState_init
       [Main.WriteUint16 0 0; Main.CpuLoop; Main.UpdateBuffer 0; Main.Draw]).
Proof.
  rewrite loop_due by reflexivity.
  rewrite (frame_returns _ _ Inputs.mem_keys0 Inputs.mem_keys0 0).
  - reflexivity.
  - reflexivity.
  - apply cpuLoop_zero_memory. apply le_n.
  - reflexivity.
Qed.

(** The conversion of the specification's audio decoder on the two extreme
    samples. *)
Lemma sample_float_extremes :
  Audio.sample_float (Audio.int8 0x80) = (-1)%float
  /\ Audio.sample_float (Audio.int8 0x7F) = 0.9921875%float.
Proof. split; reflexivity. Qed.

(** * Further properties of the code *)

(** ** The accessors on the address space *)

Lemma in_view_machine (m : ArrayBuffer) (off size : Z) :
  byteLength m = 0x1000008 -> 0 <= off -> off + size <= 0x1000008 ->
  DataView.in_view m off size = true.
Proof.
  intros Hlen H0 H1. unfold DataView.in_view. rewrite Hlen.
  apply andb_true_iff. split; apply Z.leb_le; lia.
Qed.

Lemma in_view_negative (m : ArrayBuffer) (off size : Z) :
  off < 0 -> DataView.in_view m off size = false.
Proof.
  intros H. unfold DataView.in_view.
  replace (0 <=? off) with false by (symmetry; apply Z.leb_gt; lia).
  reflexivity.
Qed.

Lemma gtb_true_of_gt (x y : Z) : x > y -> (x >? y) = true.
Proof. intros H. destruct (Z.gtb_spec x y); [reflexivity|lia]. Qed.

(** X1: on a memory of 0x1000008 bytes, [readByte], [readUint24] and
    [writeUint16] return exactly for the addresses 0 to 0xFFFFFF (the
    padding makes the 4-byte read at 0xFFFFFF fit); above 0xFFFFFF they
    throw 'Address out of bounds', and on a negative address, which the
    guard lets through, the [DataView] throws a RangeError; memory is
    unchanged by a failed call. *)
Theorem accessors_address_space (m : ArrayBuffer) (addr value : Z) :
  byteLength m = 0x1000008 ->
  (addr > 0xFFFFFF ->
     BytePusher.readByte addr m = (Throw AddressOutOfBounds, m)
     /\ BytePusher.readUint24 addr m = (Throw AddressOutOfBounds, m)
     /\ BytePusher.writeUint16 addr value m = (Throw AddressOutOfBounds, m))
  /\ (addr < 0 ->
     BytePusher.readByte addr m = (Throw RangeError, m)
     /\ BytePusher.readUint24 addr m = (Throw RangeError, m)
     /\ BytePusher.writeUint16 addr value m = (Throw RangeError, m))
  /\ (0 <= addr <= 0xFFFFFF ->
     BytePusher.readByte addr m = (Ok (DataView.cell m addr), m)
     /\ (exists w, BytePusher.readUint24 addr m = (Ok w, m))
     /\ (exists m', BytePusher.writeUint16 addr value m = (Ok tt, m'))).
Proof.
  intros Hlen.
  unfold BytePusher.readByte, BytePusher.writeUint16, DataView.getUint8,
    DataView.setUint16.
  rewrite readUint24_unfold. unfold_M.
  split; [|split].
  - intros H. rewrite (gtb_true_of_gt _ _ H). auto.
  - intros H. rewrite gtb_false_of_le by lia.
    rewrite !in_view_negative by lia. auto.
  - intros H. rewrite gtb_false_of_le by lia.
    rewrite !in_view_machine by lia. eauto.
Qed.

Lemma accessors_address_space_witness :
  byteLength Inputs.mem_0x80 = 0x1000008
  /\ BytePusher.readByte 0xFFFFFF Inputs.mem_0x80
     = (Ok (DataView.cell Inputs.mem_0x80 0xFFFFFF), Inputs.mem_0x80)
  /\ BytePusher.readUint24 0x1000000 Inputs.mem_0x80
     = (Throw AddressOutOfBounds, Inputs.mem_0x80)
  /\ BytePusher.writeUint16 (-1) 7 Inputs.mem_0x80
     = (Throw RangeError, Inputs.mem_0x80).
Proof.
  split; [reflexivity|]. split; [|split].
  - apply (accessors_address_space Inputs.mem_0x80 0xFFFFFF 0 eq_refl). lia.
  - apply (accessors_address_space Inputs.mem_0x80 0x1000000 0 eq_refl). lia.
  - apply (accessors_address_space Inputs.mem_0x80 (-1) 7 eq_refl). lia.
Defined.

(** X2: on a memory of 0x1000008 bytes and an address in [0, 0xFFFFFF],
    [readUint24] leaves the memory alone and returns a signed 24-bit value:
    the big-endian value of the bytes at [addr], [addr+1], [addr+2] when the
    first byte is below 0x80, and that value minus 2^24 otherwise; the byte
    at [addr+3] has no influence. *)
Theorem readUint24_signed_value (m : ArrayBuffer) (addr : Z) :
  byteLength m = 0x1000008 -> 0 <= addr <= 0xFFFFFF ->
  exists w,
    BytePusher.readUint24 addr m = (Ok w, m)
    /\ w = (if DataView.cell m addr <? 128 then Spec.be24 m addr
            else Spec.be24 m addr - 2 ^ 24)
    /\ - 2 ^ 23 <= w < 2 ^ 23.
Proof.
  intros Hlen Ha. eexists. split; [apply readUint24_value; assumption|].
  split; [reflexivity|].
  unfold Spec.be24.
  pose proof (cell_range m addr). pose proof (cell_range m (addr + 1)).
  pose proof (cell_range m (addr + 2)).
  destruct (DataView.cell m addr <? 128) eqn:E;
    [apply Z.ltb_lt in E | apply Z.ltb_ge in E]; lia.
Qed.

Lemma readUint24_signed_value_witness :
  byteLength Inputs.mem_wait = 0x1000008 /\ 0 <= 2 <= 0xFFFFFF /\
  exists w,
    BytePusher.readUint24 2 Inputs.mem_wait = (Ok w, Inputs.mem_wait)
    /\ w = (if DataView.cell Inputs.mem_wait 2 <? 128 then Spec.be24 Inputs.mem_wait 2
            else Spec.be24 Inputs.mem_wait 2 - 2 ^ 24)
    /\ - 2 ^ 23 <= w < 2 ^ 23.
Proof.
  split; [reflexivity|]. split; [lia|].
  apply (readUint24_signed_value Inputs.mem_wait 2); [reflexivity|lia].
Defined.

Lemma writeUint16_cells (m : ArrayBuffer) (addr value : Z) :
  byteLength m = 0x1000008 -> 0 <= addr <= 0xFFFFFF ->
  exists m',
    BytePusher.writeUint16 addr value m = (Ok tt, m')
    /\ byteLength m' = 0x1000008
    /\ DataView.cell m' addr = value mod 65536 / 256
    /\ DataView.cell m' (addr + 1) = value mod 256
    /\ (forall i, i <> addr -> i <> addr + 1 ->
          DataView.cell m' i = DataView.cell m i).
Proof.
  intros Hlen Ha.
  unfold BytePusher.writeUint16, DataView.setUint16. unfold_M.
  rewrite gtb_false_of_le by lia. rewrite in_view_machine by lia.
  eexists. split; [reflexivity|]. split; [exact Hlen|].
  split; [|split].
  - rewrite !cell_store.
    destruct (decide (addr + 1 = addr)); [lia|].
    destruct (decide (addr = addr)); [|congruence].
    change (2 ^ 16) with 65536. rewrite Z.shiftr_div_pow2 by lia.
    change (2 ^ 8) with 256.
    pose proof (Z.mod_pos_bound value 65536).
    apply Z.mod_small. split.
    + apply Z.div_pos; lia.
    + apply Z.div_lt_upper_bound; lia.
  - rewrite cell_store.
    destruct (decide (addr + 1 = addr + 1)); [|congruence].
    change (2 ^ 16) with 65536.
    apply Z.mod_mod_divide. exists 256. reflexivity.
  - intros i H1 H2. rewrite !cell_store.
    destruct (decide (addr + 1 = i)); [lia|].
    destruct (decide (addr = i)); [lia|reflexivity].
Qed.

(** X3: on a memory of 0x1000008 bytes and an address in [0, 0xFFFFFF],
    [writeUint16(addr, value)] returns, stores the high byte of the low 16
    bits of [value] at [addr] and the low byte at [addr + 1], and changes no
    other byte and not the length; [readByte] reads the two bytes back, and
    they rebuild a [value] in [0, 0xFFFF]; only at [addr = 0xFFFFFF] the low
    byte lies in the padding, where [readByte] refuses to read. *)
Theorem writeUint16_big_endian (m : ArrayBuffer) (addr value : Z) :
  byteLength m = 0x1000008 -> 0 <= addr <= 0xFFFFFF ->
  exists m',
    BytePusher.writeUint16 addr value m = (Ok tt, m')
    /\ byteLength m' = 0x1000008
    /\ (forall i, i <> addr -> i <> addr + 1 ->
          DataView.cell m' i = DataView.cell m i)
    /\ BytePusher.readByte addr m' = (Ok (value mod 65536 / 256), m')
    /\ BytePusher.readByte (addr + 1) m'
       = (if addr =? 0xFFFFFF then Throw AddressOutOfBounds
          else Ok (value mod 256), m')
    /\ DataView.cell m' (addr + 1) = value mod 256
    /\ (0 <= value <= 0xFFFF ->
          DataView.cell m' addr * 256 + DataView.cell m' (addr + 1) = value).
Proof.
  intros Hlen Ha.
  destruct (writeUint16_cells m addr value Hlen Ha)
    as (m' & E & Hlen' & Hhi & Hlo & Hother).
  exists m'. split; [exact E|]. split; [exact Hlen'|]. split; [exact Hother|].
  split; [|split; [|split]].
  - unfold BytePusher.readByte, DataView.getUint8.
    rewrite gtb_false_of_le by lia. rewrite in_view_machine by lia.
    rewrite Hhi. reflexivity.
  - unfold BytePusher.readByte, DataView.getUint8.
    destruct (Z.eqb_spec addr 0xFFFFFF) as [->|Hne].
    + reflexivity.
    + rewrite gtb_false_of_le by lia. rewrite in_view_machine by lia.
      rewrite Hlo. reflexivity.
  - exact Hlo.
  - intros Hv. rewrite Hhi, Hlo.
    rewrite (Z.mod_small value 65536) by lia.
    pose proof (Z.div_mod value 256). lia.
Qed.

Lemma writeUint16_big_endian_witness :
  byteLength BytePusher.mem_init = 0x1000008 /\ 0 <= 0 <= 0xFFFFFF /\
  exists m',
    BytePusher.writeUint16 0 0x8002 BytePusher.mem_init = (Ok tt, m')
    /\ BytePusher.readByte 0 m' = (Ok (0x8002 mod 65536 / 256), m').
Proof.
  split; [reflexivity|]. split; [lia|].
  destruct (writeUint16_big_endian BytePusher.mem_init 0 0x8002 eq_refl)
    as (m' & H1 & _ & _ & H2 & _); [lia|].
  exists m'. split; assumption.
Defined.

(** ** Copying a byte *)

(** X4: on a memory of 0x1000008 bytes, when the addresses stored at [src]
    and at [dest] (both in [0, 0xFFFFFF]) have a first byte below 0x80,
    [writeByte(src, dest)] returns, the byte at the address stored at [dest]
    becomes the byte at the address stored at [src], and no other byte and
    not the length changes. *)
Theorem writeByte_copies (m : ArrayBuffer) (src dest : Z) :
  byteLength m = 0x1000008 ->
  0 <= src <= 0xFFFFFF -> 0 <= dest <= 0xFFFFFF ->
  DataView.cell m src < 128 -> DataView.cell m dest < 128 ->
  exists m',
    BytePusher.writeByte src dest m = (Ok tt, m')
    /\ byteLength m' = 0x1000008
    /\ DataView.cell m' (Spec.be24 m dest) = DataView.cell m (Spec.be24 m src)
    /\ forall i, i <> Spec.be24 m dest -> DataView.cell m' i = DataView.cell m i.
Proof.
  intros Hlen Hs Hd Hsb Hdb.
  rewrite writeByte_unfold.
  rewrite (gtb_false_of_le src) by lia. rewrite (gtb_false_of_le dest) by lia.
  cbn [orb].
  rewrite (readUint24_value dest m Hlen Hd), (readUint24_value src m Hlen Hs).
  replace (DataView.cell m dest <? 128) with true by (symmetry; apply Z.ltb_lt; lia).
  replace (DataView.cell m src <? 128) with true by (symmetry; apply Z.ltb_lt; lia).
  assert (Hrs : 0 <= Spec.be24 m src < 2 ^ 23).
  { unfold Spec.be24. pose proof (cell_range m src).
    pose proof (cell_range m (src + 1)). pose proof (cell_range m (src + 2)). lia. }
  assert (Hrd : 0 <= Spec.be24 m dest < 2 ^ 23).
  { unfold Spec.be24. pose proof (cell_range m dest).
    pose proof (cell_range m (dest + 1)). pose proof (cell_range m (dest + 2)). lia. }
  rewrite in_view_machine by lia.
  unfold DataView.setUint8. rewrite in_view_machine by lia.
  eexists. split; [reflexivity|]. split; [exact Hlen|]. split.
  - rewrite cell_store. destruct (decide (Spec.be24 m dest = Spec.be24 m dest));
      [|congruence].
    apply Z.mod_small. apply cell_range.
  - intros i Hi. rewrite cell_store.
    destruct (decide (Spec.be24 m dest = i)); [congruence|reflexivity].
Qed.

Lemma writeByte_copies_witness :
  byteLength Inputs.mem_wait = 0x1000008
  /\ 0 <= 2 <= 0xFFFFFF /\ 0 <= 8 <= 0xFFFFFF
  /\ DataView.cell Inputs.mem_wait 2 < 128 /\ DataView.cell Inputs.mem_wait 8 < 128
  /\ exists m',
       BytePusher.writeByte 2 8 Inputs.mem_wait = (Ok tt, m')
       /\ byteLength m' = 0x1000008
       /\ DataView.cell m' (Spec.be24 Inputs.mem_wait 8)
          = DataView.cell Inputs.mem_wait (Spec.be24 Inputs.mem_wait 2)
       /\ forall i, i <> Spec.be24 Inputs.mem_wait 8 ->
                    DataView.cell m' i = DataView.cell Inputs.mem_wait i.
Proof.
  split; [reflexivity|]. split; [lia|]. split; [lia|].
  split; [vm_compute; reflexivity|]. split; [vm_compute; reflexivity|].
  apply (writeByte_copies Inputs.mem_wait 2 8);
    [reflexivity|lia|lia|vm_compute; reflexivity|vm_compute; reflexivity].
Defined.

(** ** What the CPU loop throws *)

Lemma writeByte_throws (src dest : Z) (m : ArrayBuffer) (e : error) :
  src <= 0xFFFFFF -> dest <= 0xFFFFFF ->
  (BytePusher.writeByte src dest m).1 = Throw e -> e = RangeError.
Proof.
  intros Hs Hd. rewrite writeByte_unfold.
  rewrite (gtb_false_of_le _ _ Hs), (gtb_false_of_le _ _ Hd). cbn [orb].
  destruct (readUint24_cases dest m Hd) as [-> | (d & -> & _)];
    [intros [= <-]; reflexivity|].
  destruct (readUint24_cases src m Hs) as [-> | (s & -> & _)];
    [intros [= <-]; reflexivity|].
  unfold DataView.setUint8. repeat case_if; simpl; congruence.
Qed.

Lemma loop_throws {St L : Type} (I : L -> Prop) (E : error -> Prop)
    (cond : L -> bool) (body : L -> M St L) :
  (forall l s, I l ->
     match (body l s).1 with
     | Ok l' => I l'
     | Throw e => E e
     | OutOfFuel => True
     end) ->
  forall (fuel : nat) (l : L) (s : St) (e : error),
    I l -> (loop_ fuel cond body l s).1 = Throw e -> E e.
Proof.
  intros Hbody. induction fuel as [|fuel IH]; intros l s e Hl; simpl.
  - destruct (cond l); simpl; discriminate.
  - destruct (cond l); [|simpl; discriminate].
    specialize (Hbody l s Hl).
    destruct (body l s) as [[l'|e'|] s']; simpl in Hbody.
    + apply IH. exact Hbody.
    + simpl. intros [= <-]. exact Hbody.
    + simpl. discriminate.
Qed.

(** X5: whatever the memory and the fuel, [cpuLoop] never throws 'Address
    out of bounds': every [pc] it reads is below 2^23, so [pc], [pc + 3] and
    [pc + 6] pass the guards; the only exception it can throw is the
    RangeError of the [DataView]. *)
Theorem cpuLoop_throws_only_RangeError (fuel : nat) (m : ArrayBuffer) :
  forall e, (BytePusher.cpuLoop fuel m).1 = Throw e -> e = RangeError.
Proof.
  intros e. unfold BytePusher.cpuLoop, BytePusher.cpuLoop_locals. unfold_M.
  destruct (readUint24_cases 2 m) as [-> | (pc & -> & Hpc)]; [lia| |].
  { simpl. intros [= <-]. reflexivity. }
  pose proof (loop_throws (fun l : Z * Z => l.2 < 2 ^ 23)
                (fun e => e = RangeError)
                (fun l : Z * Z => l.1 <? 65536) BytePusher.cpuLoop_body) as H.
  lapply H.
  - clear H. intros H. specialize (H fuel (0, pc) m).
    destruct (loop_ fuel _ BytePusher.cpuLoop_body (0, pc) m) as [[l|e'|] m'];
      simpl in *; try discriminate.
    intros [= <-]. apply H; [lia|reflexivity].
  - clear H. intros [i pc0] s Hl. simpl in Hl.
    unfold BytePusher.cpuLoop_body. unfold_M.
    pose proof (writeByte_throws pc0 (pc0 + 3) s) as Hw.
    destruct (BytePusher.writeByte pc0 (pc0 + 3) s) as [[[]|e'|] s1]; simpl in *;
      [|apply Hw; [lia|lia|reflexivity]|exact I].
    destruct (readUint24_cases (pc0 + 6) s1) as [-> | (pc' & -> & Hpc')];
      [lia|reflexivity|simpl; lia].
Qed.

Lemma cpuLoop_throws_only_RangeError_witness :
  (BytePusher.cpuLoop 1 Inputs.mem_pc_0x80).1 = Throw RangeError
  /\ RangeError = RangeError.
Proof.
  split; [vm_compute; reflexivity|].
  apply (cpuLoop_throws_only_RangeError 1 Inputs.mem_pc_0x80 RangeError).
  vm_compute. reflexivity.
Defined.

(** ** The framebuffer address *)

Lemma getFramebufferStartAddress_value (m : ArrayBuffer) :
  byteLength m = 0x1000008 ->
  BytePusher.getFramebufferStartAddress m = (Ok (DataView.cell m 5 * 65536), m).
Proof.
  intros Hlen. pose proof (cell_range m 5) as Hc.
  unfold BytePusher.getFramebufferStartAddress, BytePusher.readByte,
    DataView.getUint8. unfold_M.
  rewrite gtb_false_of_le by lia. rewrite in_view_machine by lia.
  do 2 f_equal. unfold JS.shl.
  change (Z.land (JS.ToUint32 16) 31) with 16.
  rewrite (ToInt32_small (DataView.cell m 5)) by lia.
  rewrite Z.shiftl_mul_pow2 by lia. change (2 ^ 16) with 65536.
  apply ToInt32_small. lia.
Qed.

(** X7: on a memory of 0x1000008 bytes, [getFramebufferStartAddress]
    returns the byte at address 5 times 65536, without changing the memory:
    a multiple of 65536 between 0 and 0xFF0000, so that the 65536 bytes of
    the framebuffer all have addresses in [0, 0xFFFFFF]. *)
Theorem getFramebufferStartAddress_page (m : ArrayBuffer) :
  byteLength m = 0x1000008 ->
  BytePusher.getFramebufferStartAddress m = (Ok (DataView.cell m 5 * 65536), m)
  /\ 0 <= DataView.cell m 5 * 65536 <= 0xFF0000
  /\ (DataView.cell m 5 * 65536) mod 65536 = 0
  /\ DataView.cell m 5 * 65536 + 65535 <= 0xFFFFFF.
Proof.
  intros Hlen. pose proof (cell_range m 5) as Hc.
  split; [apply getFramebufferStartAddress_value; exact Hlen|].
  split; [lia|split; [apply Z.mod_mul; lia|lia]].
Qed.

Lemma getFramebufferStartAddress_page_witness :
  byteLength Inputs.mem_pixel = 0x1000008
  /\ BytePusher.getFramebufferStartAddress Inputs.mem_pixel
     = (Ok (DataView.cell Inputs.mem_pixel 5 * 65536), Inputs.mem_pixel).
Proof.
  split; [reflexivity|].
  apply (getFramebufferStartAddress_page Inputs.mem_pixel). reflexivity.
Defined.

(** ** A program that waits for the next frame *)







(** ** Decoding the framebuffer *)

Lemma Uint32Array_set_length (a : ArrayBuffer) (i : Z) (v : option Uint32Array.element) :
  byteLength (Uint32Array.set a i v) = byteLength a.
Proof. unfold Uint32Array.set. case_if; reflexivity. Qed.

Lemma Uint32Array_set_other (a : ArrayBuffer) (i : Z)
    (v : option Uint32Array.element) (c : Z) :
  c < i * 4 \/ i * 4 + 4 <= c ->
  DataView.cell (Uint32Array.set a i v) c = DataView.cell a c.
Proof.
  intros Hc. unfold Uint32Array.set. case_if; [|reflexivity].
  rewrite !cell_store.
  repeat (destruct (decide _); [lia|]). reflexivity.
Qed.

Lemma Uint32Array_set_byte (a : ArrayBuffer) (i : Z)
    (v : option Uint32Array.element) (j : Z) :
  0 <= i -> i * 4 + 4 <= byteLength a -> 0 <= j < 4 ->
  DataView.cell (Uint32Array.set a i v) (i * 4 + j)
  = Uint32Array.byte (default (0, 0, 0, 0) v) j mod 256.
Proof.
  intros Hi Hlen Hj. unfold Uint32Array.set.
  replace ((0 <=? i) && (i * 4 + 4 <=? byteLength a)) with true
    by (symmetry; apply andb_true_iff; split; apply Z.leb_le; lia).
  rewrite !cell_store.
  assert (j = 0 \/ j = 1 \/ j = 2 \/ j = 3) as [-> | [-> | [-> | ->]]] by lia;
    repeat (destruct (decide _); try lia); reflexivity.
Qed.

Lemma Uint32Array_get_byte_range (a : ArrayBuffer) (k : option Z) (j : Z) :
  0 <= Uint32Array.byte (default (0, 0, 0, 0) (Uint32Array.get a k)) j < 256.
Proof.
  unfold Uint32Array.get. destruct k as [k|]; [|simpl; repeat case_if; lia].
  case_if; [|simpl; repeat case_if; lia].
  simpl. repeat case_if; apply cell_range.
Qed.

(** From pixel [i] on, the loop of [updateBuffer] fills the image and
    leaves the bytes before pixel [i] alone. *)
Lemma updateBuffer_loop (palette : ArrayBuffer) (framebuffer : Uint8Array.t)
    (n : nat) :
  forall (fuel : nat) (i : Z) (buf : ArrayBuffer),
    0 <= i -> i + Z.of_nat n = 65536 -> (n <= fuel)%nat ->
    byteLength buf = 256 * 256 * 4 ->
    exists buf',
      loop_ fuel (fun i : Z => i <? 256 * 256)
        (fun i array32 =>
           (Ok (i + 1),
            Uint32Array.set array32 i
              (Uint32Array.get palette (Uint8Array.get framebuffer i))))
        i buf = (Ok 65536, buf')
      /\ byteLength buf' = 256 * 256 * 4
      /\ (forall p j, i <= p < 65536 -> 0 <= j < 4 ->
            DataView.cell buf' (p * 4 + j)
            = Uint32Array.byte
                (default (0, 0, 0, 0)
                   (Uint32Array.get palette (Uint8Array.get framebuffer p))) j)
      /\ (forall c, c < i * 4 \/ 256 * 256 * 4 <= c ->
            DataView.cell buf' c = DataView.cell buf c).
Proof.
  induction n as [|n IH]; intros fuel i buf Hi Hn Hfuel Hlen.
  - assert (i = 65536) by lia. subst i. exists buf.
    split; [destruct fuel; reflexivity|]. split; [exact Hlen|].
    split; [intros; lia|reflexivity].
  - destruct fuel as [|fuel]; [lia|]. cbn [loop_].
    replace (i <? 256 * 256) with true by (symmetry; apply Z.ltb_lt; lia).
    set (v := Uint32Array.get palette (Uint8Array.get framebuffer i)).
    destruct (IH fuel (i + 1) (Uint32Array.set buf i v)) as (buf' & E & Hl & Hp & Hc);
      [lia|lia|lia|rewrite Uint32Array_set_length; exact Hlen|].
    exists buf'. split; [exact E|]. split; [exact Hl|]. split.
    + intros p j Hp' Hj. destruct (Z.eq_dec p i) as [->|Hne].
      * rewrite Hc by lia. rewrite Uint32Array_set_byte by lia.
        apply Z.mod_small. apply Uint32Array_get_byte_range.
      * apply Hp; lia.
    + intros c Hc'. rewrite Hc by lia. apply Uint32Array_set_other. lia.
Qed.

(** X8: with fuel for 65536 turns and an image buffer of 256 * 256 * 4
    bytes, [updateBuffer] returns; the four bytes of pixel [i] are the four
    bytes of the palette element whose index is byte [i] of the framebuffer
    view (zero when the view, or the palette, has no such element); the
    length of the image is unchanged. *)
Theorem updateBuffer_pixels (fuel : nat) (palette : ArrayBuffer)
    (framebuffer : Uint8Array.t) (buf : ArrayBuffer) :
  (Z.to_nat 65536 <= fuel)%nat -> byteLength buf = 256 * 256 * 4 ->
  exists buf',
    Screen.updateBuffer fuel palette framebuffer buf = (Ok tt, buf')
    /\ byteLength buf' = 256 * 256 * 4
    /\ forall i j, 0 <= i < 65536 -> 0 <= j < 4 ->
         DataView.cell buf' (i * 4 + j)
         = match Uint8Array.get framebuffer i with
           | Some k =>
               if (0 <=? k) && (k * 4 + 4 <=? byteLength palette)
               then DataView.cell palette (k * 4 + j)
               else 0
           | None => 0
           end.
Proof.
  intros Hfuel Hlen.
  assert (HN : 0 + Z.of_nat (Z.to_nat 65536) = 65536) by (rewrite Z2Nat.id; lia).
  destruct (updateBuffer_loop palette framebuffer (Z.to_nat 65536) fuel 0 buf)
    as (buf' & E & Hl & Hp & _); [lia|exact HN|exact Hfuel|exact Hlen|].
  exists buf'. split; [|split; [exact Hl|]].
  - unfold Screen.updateBuffer. unfold mbind, M_bind, bind. cbv zeta.
    rewrite E. reflexivity.
  - intros i j Hi Hj. rewrite Hp by lia.
    unfold Uint32Array.get.
    destruct (Uint8Array.get framebuffer i) as [k|]; [|simpl; repeat case_if; reflexivity].
    case_if; [|simpl; repeat case_if; reflexivity].
    assert (j = 0 \/ j = 1 \/ j = 2 \/ j = 3) as [-> | [-> | [-> | ->]]] by lia;
      simpl; rewrite ?Z.add_0_r; reflexivity.
Qed.

Lemma updateBuffer_pixels_witness :
  (Z.to_nat 65536 <= Z.to_nat 65536)%nat
  /\ byteLength Screen.buffer_init = 256 * 256 * 4
  /\ exists buf',
       Screen.updateBuffer (Z.to_nat 65536) Screen.palette_init
         (Uint8Array.mk Inputs.mem_pixel 0x010000) Screen.buffer_init
       = (Ok tt, buf')
       /\ byteLength buf' = 256 * 256 * 4.
Proof.
  split; [apply le_n|]. split; [reflexivity|].
  destruct (updateBuffer_pixels (Z.to_nat 65536) Screen.palette_init
              (Uint8Array.mk Inputs.mem_pixel 0x010000) Screen.buffer_init)
    as (buf' & E & Hl & _); [apply le_n|reflexivity|].
  exists buf'. split; assumption.
Defined.

Lemma palette_entry (f : nat) (k : Z) :
  0 <= k <= 255 ->
  Screen.entry (Screen.initPalette (20 + f) Screen.palette_init).2 k
  = Ok (if k <=? 215 then Spec.websafe k
        else if Z.even k then Spec.opaque_black else 0).
Proof.
  intros Hk.
  destruct (palette_check_sound _ palette_check_true) as (Hret & Hcube & Hblack).
  assert (E : Screen.initPalette (20 + f)%nat Screen.palette_init
              = Screen.initPalette 20 Screen.palette_init).
  { apply initPalette_mono; [lia|]. rewrite Hret. discriminate. }
  generalize dependent (Screen.initPalette 20 Screen.palette_init).
  intros r Hret Hcube Hblack E. rewrite E.
  destruct (Z.leb_spec k 215); [apply Hcube|apply Hblack]; lia.
Qed.

Lemma entry_cells (p : ArrayBuffer) (k v : Z) :
  0 <= k -> Screen.entry p k = Ok v ->
  (0 <=? k) && (k * 4 + 4 <=? byteLength p) = true
  /\ v = DataView.cell p (k * 4) * 2 ^ 24 + DataView.cell p (k * 4 + 1) * 2 ^ 16
         + DataView.cell p (k * 4 + 2) * 2 ^ 8 + DataView.cell p (k * 4 + 3).
Proof.
  intros Hk. unfold Screen.entry, DataView.getUint32, DataView.in_view.
  destruct ((0 <=? k * 4) && (k * 4 + 4 <=? byteLength p)) eqn:E;
    [|discriminate].
  simpl. intros [= <-]. split; [|reflexivity].
  apply andb_true_iff in E as [_ E]. rewrite E.
  replace (0 <=? k) with true by (symmetry; apply Z.leb_le; lia). reflexivity.
Qed.

(** X9: the video path of a frame.  On a memory of 0x1000008 bytes, the
    framebuffer address is the byte at address 5 times 65536, the
    [Uint8Array] over the memory from there exists, and [updateBuffer] with
    the palette left by [initPalette] returns with, at pixel (x, y), the
    colour of the index stored at [framebuffer + y * 256 + x]: the web-safe
    colour for an index up to 215, opaque black for an even index from 216
    and 0x00000000 for an odd index from 217. *)
Theorem frame_pixels_are_palette_colours (f fuel : nat) (m buf : ArrayBuffer) :
  (Z.to_nat 65536 <= fuel)%nat ->
  byteLength m = 0x1000008 -> byteLength buf = 256 * 256 * 4 ->
  exists framebuffer buf',
    BytePusher.getFramebufferStartAddress m = (Ok (DataView.cell m 5 * 65536), m)
    /\ Uint8Array.make m (DataView.cell m 5 * 65536) = Ok framebuffer
    /\ Screen.updateBuffer fuel
         (Screen.initPalette (20 + f) Screen.palette_init).2 framebuffer buf
       = (Ok tt, buf')
    /\ forall x y, 0 <= x < 256 -> 0 <= y < 256 ->
         Aux.rgba buf' (y * 256 + x)
         = (let k := DataView.cell m (DataView.cell m 5 * 65536 + y * 256 + x) in
            if k <=? 215 then Spec.websafe k
            else if Z.even k then Spec.opaque_black else 0).
Proof.
  intros Hfuel Hlen Hbuf.
  pose proof (cell_range m 5) as H5.
  set (fb := DataView.cell m 5 * 65536) in *.
  set (p := (Screen.initPalette (20 + f) Screen.palette_init).2).
  exists (Uint8Array.mk m fb).
  assert (HN : 0 + Z.of_nat (Z.to_nat 65536) = 65536) by (rewrite Z2Nat.id; lia).
  destruct (updateBuffer_loop p (Uint8Array.mk m fb) (Z.to_nat 65536) fuel 0 buf)
    as (buf' & E & Hl & Hp & _); [lia|exact HN|exact Hfuel|exact Hbuf|].
  exists buf'.
  split; [apply getFramebufferStartAddress_value; exact Hlen|].
  split.
  { unfold Uint8Array.make. rewrite Hlen.
    replace (fb <? 0) with false by (symmetry; apply Z.ltb_ge; lia).
    replace (0x1000008 <? fb) with false by (symmetry; apply Z.ltb_ge; lia).
    reflexivity. }
  split.
  { unfold Screen.updateBuffer. unfold mbind, M_bind, bind. cbv zeta.
    rewrite E. reflexivity. }
  intros x y Hx Hy. cbv zeta.
  set (i := y * 256 + x).
  assert (Hi : 0 <= i < 65536) by lia.
  assert (Hget : Uint8Array.get (Uint8Array.mk m fb) i
                 = Some (DataView.cell m (fb + i))).
  { unfold Uint8Array.get, Uint8Array.length. simpl. rewrite Hlen.
    replace ((0 <=? i) && (i <? 0x1000008 - fb)) with true; [reflexivity|].
    symmetry. apply andb_true_iff. split; [apply Z.leb_le|apply Z.ltb_lt]; lia. }
  replace (fb + y * 256 + x) with (fb + i) by lia.
  pose proof (cell_range m (fb + i)) as Hk.
  set (k := DataView.cell m (fb + i)) in *.
  pose proof (palette_entry f k ltac:(lia)) as He. fold p in He.
  destruct (entry_cells p k _ ltac:(lia) He) as [Hin Hv].
  rewrite Hv. unfold Aux.rgba.
  rewrite <- (Z.add_0_r (i * 4)) at 1.
  rewrite !Hp by lia. rewrite Hget. unfold Uint32Array.get. rewrite Hin.
  simpl. reflexivity.
Qed.

Lemma frame_pixels_are_palette_colours_witness :
  (Z.to_nat 65536 <= Z.to_nat 65536)%nat
  /\ byteLength Inputs.mem_pixel = 0x1000008
  /\ byteLength Screen.buffer_init = 256 * 256 * 4
  /\ exists framebuffer buf',
       Uint8Array.make Inputs.mem_pixel (DataView.cell Inputs.mem_pixel 5 * 65536)
       = Ok framebuffer
       /\ Screen.updateBuffer (Z.to_nat 65536)
            (Screen.initPalette (20 + 0) Screen.palette_init).2 framebuffer
            Screen.buffer_init
          = (Ok tt, buf')
       /\ Aux.rgba buf' (0 * 256 + 2)
          = (let k := DataView.cell Inputs.mem_pixel
                        (DataView.cell Inputs.mem_pixel 5 * 65536 + 0 * 256 + 2) in
             if k <=? 215 then Spec.websafe k
             else if Z.even k then Spec.opaque_black else 0).
Proof.
  split; [apply le_n|]. split; [reflexivity|]. split; [reflexivity|].
  destruct (frame_pixels_are_palette_colours 0 (Z.to_nat 65536)
              Inputs.mem_pixel Screen.buffer_init)
    as (fb & buf' & _ & H1 & H2 & H3); [apply le_n|reflexivity|reflexivity|].
  exists fb, buf'. split; [exact H1|]. split; [exact H2|].
  apply H3; lia.
Defined.

(** ** Which keys the keyboard word shows *)

Lemma keydown_mapped (key : string) (k s : Z) :
  Keyboard.keymap !! key = Some k -> Spec.key_bits s ->
  Keyboard.keydown key s = Z.lor s k.
Proof.
  intros E Hs. unfold Keyboard.keydown. rewrite E.
  pose proof (key_bits_range _ Hs).
  pose proof (key_bits_range _ (keymap_key_bits _ _ E)).
  unfold JS.bor. rewrite !ToInt32_small by lia. reflexivity.
Qed.

Lemma keyup_mapped (key : string) (k s : Z) :
  Keyboard.keymap !! key = Some k -> Spec.key_bits s ->
  Keyboard.keyup key s = Z.land s (Z.lnot k).
Proof.
  intros E Hs. unfold Keyboard.keyup. rewrite E.
  pose proof (key_bits_range _ Hs).
  pose proof (key_bits_range _ (keymap_key_bits _ _ E)).
  unfold JS.band, JS.bnot. rewrite (ToInt32_small k) by lia.
  rewrite (ToInt32_small s) by lia.
  rewrite ToInt32_small by (unfold Z.lnot; lia). reflexivity.
Qed.

Lemma keymap_disjoint (key1 key2 : string) (k1 k2 : Z) :
  Keyboard.keymap !! key1 = Some k1 -> Keyboard.keymap !! key2 = Some k2 ->
  key1 <> key2 -> Z.land k1 k2 = 0.
Proof.
  intros H1 H2 Hne. keymap_cases H1; keymap_cases H2;
    (reflexivity || (exfalso; apply Hne; reflexivity)).
Qed.

Lemma land_lnot_disjoint (a b : Z) : Z.land a b = 0 -> Z.land (Z.lnot a) b = b.
Proof.
  intros H. apply Z.bits_inj'. intros i Hi.
  rewrite Z.land_spec, Z.lnot_spec by lia.
  assert (Hb : Z.testbit (Z.land a b) i = false) by (rewrite H; apply Z.bits_0).
  rewrite Z.land_spec in Hb.
  destruct (Z.testbit a i), (Z.testbit b i); simpl in *; congruence.
Qed.

Lemma dispatch_key_bits (s : Z) (e : Keyboard.event) :
  Spec.key_bits s -> Spec.key_bits (Keyboard.dispatch s e).
Proof.
  intros Hs. destruct e; simpl; [apply keydown_key_bits|apply keyup_key_bits];
    exact Hs.
Qed.

(** One event moves the bit of [key] as [Aux.held] says. *)
Lemma dispatch_held (key : string) (k s : Z) (h : bool) (e : Keyboard.event) :
  Keyboard.keymap !! key = Some k -> Spec.key_bits s ->
  Z.land s k = (if h then k else 0) ->
  Z.land (Keyboard.dispatch s e) k
  = (if Aux.held key h [e] then k else 0).
Proof.
  intros Ek Hs Hh. destruct e as [key'|key']; simpl.
  - destruct (decide (key' = key)) as [->|Hne].
    + rewrite (keydown_mapped key k s Ek Hs).
      rewrite Z.land_lor_distr_l, Hh, Z.land_diag.
      destruct h; [apply Z.lor_diag|apply Z.lor_0_l].
    + unfold Keyboard.keydown.
      destruct (Keyboard.keymap !! key') as [k'|] eqn:Ek'; [|exact Hh].
      pose proof (keydown_mapped key' k' s Ek' Hs) as E.
      unfold Keyboard.keydown in E. rewrite Ek' in E. rewrite E.
      rewrite Z.land_lor_distr_l, Hh.
      rewrite (keymap_disjoint key' key k' k Ek' Ek Hne). apply Z.lor_0_r.
  - destruct (decide (key' = key)) as [->|Hne].
    + rewrite (keyup_mapped key k s Ek Hs).
      rewrite <- Z.land_assoc.
      replace (Z.land (Z.lnot k) k) with 0; [apply Z.land_0_r|].
      symmetry. rewrite Z.land_comm. apply Z.land_lnot_diag.
    + unfold Keyboard.keyup.
      destruct (Keyboard.keymap !! key') as [k'|] eqn:Ek'; [|exact Hh].
      pose proof (keyup_mapped key' k' s Ek' Hs) as E.
      unfold Keyboard.keyup in E. rewrite Ek' in E. rewrite E.
      rewrite <- Z.land_assoc.
      rewrite (land_lnot_disjoint k' k (keymap_disjoint key' key k' k Ek' Ek Hne)).
      exact Hh.
Qed.

Lemma dispatch_all_held (key : string) (k : Z) (es : list Keyboard.event) :
  Keyboard.keymap !! key = Some k ->
  forall (s : Z) (h : bool),
    Spec.key_bits s -> Z.land s k = (if h then k else 0) ->
    Z.land (fold_left Keyboard.dispatch es s) k
    = (if Aux.held key h es then k else 0).
Proof.
  intros Ek. induction es as [|e es IH]; intros s h Hs Hh; [exact Hh|].
  simpl. apply IH; [apply dispatch_key_bits; exact Hs|].
  apply (dispatch_held key k s h e Ek Hs Hh).
Qed.

(** X10: the keyboard word shows exactly the keys that are held.  For a
    key of the key map with mask [k], after any sequence of keydown and
    keyup events from key state 0, [keyState & k] is [k] if the last event on
    that key is a keydown and 0 otherwise (no event on the key, or a keyup
    last); events on other keys, mapped or not, do not matter. *)
Theorem keyState_shows_held_keys (key : string) (k : Z)
    (es : list Keyboard.event) :
  Keyboard.keymap !! key = Some k ->
  Z.land (Keyboard.dispatch_all es) k = (if Aux.held key false es then k else 0).
Proof.
  intros Ek. unfold Keyboard.dispatch_all.
  apply (dispatch_all_held key k es Ek Keyboard.keyState_init false);
    reflexivity.
Qed.

Lemma keyState_shows_held_keys_witness :
  Keyboard.keymap !! "a"%string = Some 0x400
  /\ Z.land (Keyboard.dispatch_all
               [Keyboard.KeyDown "a"; Keyboard.KeyDown "1"; Keyboard.KeyUp "z";
                Keyboard.KeyUp "1"]%string) 0x400
     = (if Aux.held "a" false
             [Keyboard.KeyDown "a"; Keyboard.KeyDown "1"; Keyboard.KeyUp "z";
              Keyboard.KeyUp "1"]%string
        then 0x400 else 0).
Proof.
  split; [vm_compute; reflexivity|].
  apply (keyState_shows_held_keys "a" 0x400). vm_compute. reflexivity.
Defined.

(** X11: the keyboard word reaches the memory whole.  On a memory of
    0x1000008 bytes, after any sequence of key events, the write of the
    frame, [writeUint16(0, keyState)], returns; the bytes at addresses 0 and
    1 then hold the key state big-endian, without truncation, and no other
    byte has changed. *)
Theorem keyState_written_whole (es : list Keyboard.event) (m : ArrayBuffer) :
  byteLength m = 0x1000008 ->
  exists m',
    BytePusher.writeUint16 0 (Keyboard.dispatch_all es) m = (Ok tt, m')
    /\ DataView.cell m' 0 * 256 + DataView.cell m' 1 = Keyboard.dispatch_all es
    /\ forall i, i <> 0 -> i <> 1 -> DataView.cell m' i = DataView.cell m i.
Proof.
  intros Hlen.
  destruct (writeUint16_cells m 0 (Keyboard.dispatch_all es) Hlen)
    as (m' & E & _ & Hhi & Hlo & Hother); [lia|].
  exists m'. split; [exact E|]. split; [|exact Hother].
  pose proof (key_bits_range _ (dispatch_all_key_bits es)) as Hr.
  change (0 + 1) with 1 in Hlo. rewrite Hhi, Hlo.
  rewrite (Z.mod_small _ 65536) by lia.
  pose proof (Z.div_mod (Keyboard.dispatch_all es) 256). lia.
Qed.

Lemma keyState_written_whole_witness :
  byteLength Inputs.mem_wait = 0x1000008
  /\ exists m',
       BytePusher.writeUint16 0
         (Keyboard.dispatch_all [Keyboard.KeyDown "f"; Keyboard.KeyDown "1"]%string)
         Inputs.mem_wait = (Ok tt, m')
       /\ DataView.cell m' 0 * 256 + DataView.cell m' 1
          = Keyboard.dispatch_all [Keyboard.KeyDown "f"; Keyboard.KeyDown "1"]%string.
Proof.
  split; [reflexivity|].
  destruct (keyState_written_whole
              [Keyboard.KeyDown "f"; Keyboard.KeyDown "1"]%string
              Inputs.mem_wait eq_refl) as (m' & E & H & _).
  exists m'. split; assumption.
Defined.

(** ** What one tick of the loop does *)

Lemma getFramebufferStartAddress_state (m : ArrayBuffer) :
  (BytePusher.getFramebufferStartAddress m).2 = m.
Proof.
  unfold BytePusher.getFramebufferStartAddress. unfold_M.
  pose proof (readByte_state 5 m) as Hr.
  destruct (BytePusher.readByte 5 m) as [[b|e|] m1]; simpl in *; congruence.
Qed.

(** The frame keeps the key state and the length of the memory, and its
    calls are a prefix of: keyboard write, CPU loop, screen update, draw. *)
Lemma frame_shape (fuel : nat) (st : Main.state) :
  Main.lastFrameTime (Main.frame fuel st).2 = Main.lastFrameTime st
  /\ Main.keyState (Main.frame fuel st).2 = Main.keyState st
  /\ byteLength (Main.mem (Main.frame fuel st).2) = byteLength (Main.mem st)
  /\ exists l fb l',
       Main.calls (Main.frame fuel st).2 = Main.calls st ++ l
       /\ l ++ l' = [Main.WriteUint16 0 (Main.keyState st); Main.CpuLoop;
                     Main.UpdateBuffer fb; Main.Draw].
Proof.
  unfold Main.frame, Main.onMem, Main.log. unfold_M.
  cbn [Main.mem Main.keyState Main.lastFrameTime Main.calls].
  pose proof (writeUint16_length 0 (Main.keyState st) (Main.mem st)) as L1.
  destruct (BytePusher.writeUint16 0 (Main.keyState st) (Main.mem st))
    as [[[]|e|] m1]; cbn [fst snd Main.mem Main.keyState Main.lastFrameTime Main.calls] in *.
  2,3: repeat split; try assumption;
       exists [Main.WriteUint16 0 (Main.keyState st)], 0,
         [Main.CpuLoop; Main.UpdateBuffer 0; Main.Draw]; split; reflexivity.
  pose proof (cpuLoop_length fuel m1) as L2.
  destruct (BytePusher.cpuLoop fuel m1) as [[[]|e|] m2];
    cbn [fst snd Main.mem Main.keyState Main.lastFrameTime Main.calls] in *.
  2,3: repeat split; try congruence;
       exists [Main.WriteUint16 0 (Main.keyState st); Main.CpuLoop], 0,
         [Main.UpdateBuffer 0; Main.Draw]; split;
       [rewrite <- app_assoc; reflexivity|reflexivity].
  pose proof (getFramebufferStartAddress_state m2) as L3.
  destruct (BytePusher.getFramebufferStartAddress m2) as [[fb|e|] m3];
    cbn [fst snd Main.mem Main.keyState Main.lastFrameTime Main.calls] in *.
  2,3: repeat split; try congruence;
       exists [Main.WriteUint16 0 (Main.keyState st); Main.CpuLoop], 0,
         [Main.UpdateBuffer 0; Main.Draw]; split;
       [rewrite <- app_assoc; reflexivity|reflexivity].
  repeat split; try congruence.
  exists [Main.WriteUint16 0 (Main.keyState st); Main.CpuLoop;
          Main.UpdateBuffer fb; Main.Draw], fb, [].
  split; [rewrite <- !app_assoc; reflexivity|reflexivity].
Qed.

(** X12: one callback runs at most one frame, however late it comes.  A
    tick keeps the key state and the length of the memory, and the calls it
    makes are a prefix (empty when the tick is early, cut short by an
    exception) of: one keyboard write at address 0, one CPU loop, one screen
    update, one draw, in this order. *)
Theorem tick_runs_at_most_one_frame (fuel : nat) (st : Main.state) (time : float) :
  Main.keyState (Main.tick fuel st time) = Main.keyState st
  /\ byteLength (Main.mem (Main.tick fuel st time)) = byteLength (Main.mem st)
  /\ exists l fb l',
       Main.calls (Main.tick fuel st time) = Main.calls st ++ l
       /\ l ++ l' = [Main.WriteUint16 0 (Main.keyState st); Main.CpuLoop;
                     Main.UpdateBuffer fb; Main.Draw].
Proof.
  destruct (Main.frameDuration <=? time - Main.lastFrameTime st)%float eqn:E.
  - unfold Main.tick. rewrite (loop_due fuel st time E).
    destruct (frame_shape fuel
                (Main.mkState
                   (time - Number.rem (time - Main.lastFrameTime st)
                             Main.frameDuration)
                   (Main.mem st) (Main.keyState st) (Main.calls st)))
      as (_ & Hk & Hl & Hc).
    split; [exact Hk|]. split; [exact Hl|exact Hc].
  - rewrite (tick_idle fuel st time E).
    split; [reflexivity|]. split; [reflexivity|].
    exists [], 0, [Main.WriteUint16 0 (Main.keyState st); Main.CpuLoop;
                   Main.UpdateBuffer 0; Main.Draw].
    split; [symmetry; apply app_nil_r|reflexivity].
Qed.

(** X13: an exception in the CPU loop ends the frame.  When a tick is due
    and the keyboard write returns but [cpuLoop] throws, [loop] throws the
    same exception; [lastFrameTime] has already advanced, the memory is the
    one the CPU loop left, and the screen is neither updated nor drawn. *)
Theorem loop_cpu_exception (fuel : nat) (st : Main.state) (time : float)
    (m1 m2 : ArrayBuffer) (e : error) :
  (Main.frameDuration <=? time - Main.lastFrameTime st)%float = true ->
  BytePusher.writeUint16 0 (Main.keyState st) (Main.mem st) = (Ok tt, m1) ->
  BytePusher.cpuLoop fuel m1 = (Throw e, m2) ->
  Main.loop fuel time st
  = (Throw e,
     Main.mkState
       (time - Number.rem (time - Main.lastFrameTime st) Main.frameDuration)
       m2 (Main.keyState st)
       (Main.calls st ++ [Main.WriteUint16 0 (Main.keyState st); Main.CpuLoop])).
Proof.
  intros Hdue H1 H2. rewrite (loop_due fuel st time Hdue).
  unfold Main.frame, Main.onMem, Main.log. unfold_M.
  cbn [Main.mem Main.keyState Main.lastFrameTime Main.calls].
  rewrite H1. cbn [Main.mem Main.keyState Main.lastFrameTime Main.calls].
  rewrite H2. cbn [Main.mem Main.keyState Main.lastFrameTime Main.calls].
  rewrite <- !app_assoc. reflexivity.
Qed.

Lemma loop_cpu_exception_witness :
  (Main.frameDuration <=? 17 - Main.lastFrameTime Inputs.main_pc_0x80)%float = true
  /\ BytePusher.cpuLoop 1
       (DataView.store (DataView.store Inputs.mem_pc_0x80 0 0) 1 0)
     = (Throw RangeError,
        DataView.store (DataView.store Inputs.mem_pc_0x80 0 0) 1 0)
  /\ Main.loop 1 17%float Inputs.main_pc_0x80
     = (Throw RangeError,
        Main.mkState
          (17 - Number.rem (17 - Main.lastFrameTime Inputs.main_pc_0x80)
                  Main.frameDuration)
          (DataView.store (DataView.store Inputs.mem_pc_0x80 0 0) 1 0)
          (Main.keyState Inputs.main_pc_0x80)
          (Main.calls Inputs.main_pc_0x80
           ++ [Main.WriteUint16 0 (Main.keyState Inputs.main_pc_0x80);
               Main.CpuLoop])).
Proof.
  split; [reflexivity|]. split; [vm_compute; reflexivity|].
  apply (loop_cpu_exception 1 Inputs.main_pc_0x80 17%float
           (DataView.store (DataView.store Inputs.mem_pc_0x80 0 0) 1 0)
           (DataView.store (DataView.store Inputs.mem_pc_0x80 0 0) 1 0)
           RangeError);
    [reflexivity|reflexivity|vm_compute; reflexivity].
Defined.
